(** * sokol_gfx.h: descriptors, pass actions and the resource pools

    A shallow embedding of the C header [sokol_gfx.h].  The public
    structures become records, C arrays become lists of the declared
    length, [int] and the unsigned types become [Z], [float] becomes an
    IEEE-754 binary32 value, and every function that works through a
    pointer becomes a program over the pointee.

    The object a function receives a pointer to is the state its
    program runs on, so the assertion that this pointer is not null has
    nothing left to test and is not repeated in the programs; the
    assertions on the other arguments and on the contents are.  The
    only arithmetic of the header is the increment of an attribute
    count that the assertion before it bounds by 16, so no operation
    leaves the range of [int]. *)

From Stdlib Require Import ZArith Lia.
From Stdlib Require Import Floats.SpecFloat.
From stdpp Require Import base option list list_numbers strings.

Local Open Scope Z_scope.

(** ** Programs over a C object

    A C function [void f(T* p, ...)] is a program over the state [T].
    It returns normally, stops in a failed [SOKOL_ASSERT] (the header
    defines [SOKOL_ASSERT(c)] as [assert(c)], which aborts the process
    with the memory as it is at that point), or runs into an access
    outside an array, which C leaves undefined. *)

Inductive outcome (S A : Type) : Type :=
| Done (a : A) (s : S)
| Abort (s : S)
| Undefined.

Arguments Done {S A} a s.
Arguments Abort {S A} s.
Arguments Undefined {S A}.

Definition prog (S A : Type) : Type := S → outcome S A.

#[export] Instance prog_ret {S} : MRet (prog S) := λ A a s, Done a s.

#[export] Instance prog_bind {S} : MBind (prog S) := λ A B k m s,
  match m s with
  | Done a s' => k a s'
  | Abort s' => Abort s'
  | Undefined => Undefined
  end.

(** [SOKOL_ASSERT(c)] *)
Definition SOKOL_ASSERT {S} (c : bool) : prog S unit :=
  λ s, if c then Done tt s else Abort s.

(** A member of a structure: how to read it and how to overwrite it. *)
Record field (S T : Type) : Type := Field {
  fget : S → T;
  fset : T → S → S
}.

Arguments Field {S T} fget fset.
Arguments fget {S T} f s.
Arguments fset {S T} f t s.

(** [p->f] read *)
Definition load {S T} (f : field S T) : prog S T :=
  λ s, Done (fget f s) s.

(** [p->f = v] *)
Definition store {S T} (f : field S T) (v : T) : prog S unit :=
  λ s, Done tt (fset f v s).

(** Run [m] on the member [p->f], i.e. call it with [&p->f]. *)
Definition within {S T A} (f : field S T) (m : prog T A) : prog S A :=
  λ s,
    match m (fget f s) with
    | Done a t => Done a (fset f t s)
    | Abort t => Abort (fset f t s)
    | Undefined => Undefined
    end.

(** A C array of declared length [n] is a list of length [n]; an index
    is in bounds when it is one of [0 .. n-1]. *)
Definition in_bounds {T} (a : list T) (i : Z) : bool :=
  (0 <=? i) && (i <? Z.of_nat (length a)).

(** Run [m] on the array element [a[i]], i.e. call it with [&a[i]]. *)
Definition at_index {T A} (i : Z) (m : prog T A) : prog (list T) A :=
  λ a,
    if in_bounds a i then
      match a !! Z.to_nat i with
      | Some t =>
          match m t with
          | Done r t' => Done r (<[Z.to_nat i := t']> a)
          | Abort t' => Abort (<[Z.to_nat i := t']> a)
          | Undefined => Undefined
          end
      | None => Undefined
      end
    else Undefined.

(** [a[i] = v] *)
Definition store_at {T} (i : Z) (v : T) : prog (list T) unit :=
  λ a, if in_bounds a i then Done tt (<[Z.to_nat i := v]> a) else Undefined.

(** [for (int i = lo; i < hi; i++) body(i)] for a body that leaves [i]
    alone. *)
Fixpoint for_each {S} (l : list Z) (body : Z → prog S unit) : prog S unit :=
  match l with
  | [] => mret tt
  | i :: l' => body i ;; for_each l' body
  end.

Definition for_range {S} (lo hi : Z) (body : Z → prog S unit) : prog S unit :=
  for_each (seqZ lo (hi - lo)) body.

(** ** Scalars *)

(** [float]: IEEE-754 binary32, 24 bits of precision, exponent bound 128. *)
Definition f32 : Type := spec_float.
Definition f32_prec : Z := 24.
Definition f32_emax : Z := 128.

(** The value of a literal [m * 2^e] rounded to binary32. *)
Definition f32_lit (m e : Z) : f32 := binary_normalize f32_prec f32_emax m e false.

(** [0.5f] and [1.0f] *)
Definition f32_0_5 : f32 := f32_lit 1 (-1).
Definition f32_1_0 : f32 := f32_lit 1 0.

(** A [const char*] or [void*] argument: [None] is the null pointer. *)
Definition c_string : Type := option string.
Definition void_ptr : Type := option Z.

(** ** Constants (the anonymous enum at the top of the header) *)

Definition sg_id : Type := Z.

Definition SG_INVALID_ID : Z := 0.
Definition SG_DEFAULT_PASS : Z := SG_INVALID_ID.
Definition SG_MAX_COLOR_ATTACHMENTS : Z := 4.
Definition SG_MAX_SHADERSTAGE_BUFFERS : Z := 4.
Definition SG_MAX_SHADERSTAGE_IMAGES : Z := 12.
Definition SG_MAX_SHADERSTAGE_UBS : Z := 4.
Definition SG_MAX_UNIFORMS : Z := 16.
Definition SG_MAX_VERTEX_ATTRIBUTES : Z := 16.

Inductive sg_resource_type : Set :=
| SG_RESOURCETYPE_BUFFER
| SG_RESOURCETYPE_IMAGE
| SG_RESOURCETYPE_SHADER
| SG_RESOURCETYPE_PIPELINE
| SG_RESOURCETYPE_PASS.

(** The enumerator that follows the last resource type. *)
Definition SG_NUM_RESOURCETYPES : Z := 5.

Inductive sg_resource_state : Set :=
| SG_RESOURCESTATE_INITIAL
| SG_RESOURCESTATE_ALLOC
| SG_RESOURCESTATE_VALID
| SG_RESOURCESTATE_FAILED.

#[export] Instance sg_resource_state_eq_dec : EqDecision sg_resource_state.
Proof. solve_decision. Defined.

(** ** Pass action bits *)

Definition SG_PASSACTION_CLEAR_COLOR0 : Z := Z.shiftl 1 0.
Definition SG_PASSACTION_CLEAR_COLOR1 : Z := Z.shiftl 1 1.
Definition SG_PASSACTION_CLEAR_COLOR2 : Z := Z.shiftl 1 2.
Definition SG_PASSACTION_CLEAR_COLOR3 : Z := Z.shiftl 1 3.
Definition SG_PASSACTION_CLEAR_COLOR : Z :=
  Z.lor (Z.lor (Z.lor (Z.shiftl 1 0) (Z.shiftl 1 1)) (Z.shiftl 1 2)) (Z.shiftl 1 3).
Definition SG_PASSACTION_CLEAR_DEPTH : Z := Z.shiftl 1 4.
Definition SG_PASSACTION_CLEAR_STENCIL : Z := Z.shiftl 1 5.
Definition SG_PASSACTION_CLEAR_DEPTH_STENCIL : Z :=
  Z.lor (Z.shiftl 1 4) (Z.shiftl 1 5).
Definition SG_PASSACTION_CLEAR_ALL : Z :=
  Z.lor SG_PASSACTION_CLEAR_COLOR SG_PASSACTION_CLEAR_DEPTH_STENCIL.
Definition SG_PASSACTION_LOAD_COLOR0 : Z := Z.shiftl 1 6.
Definition SG_PASSACTION_LOAD_COLOR1 : Z := Z.shiftl 1 7.
Definition SG_PASSACTION_LOAD_COLOR2 : Z := Z.shiftl 1 8.
Definition SG_PASSACTION_LOAD_COLOR3 : Z := Z.shiftl 1 9.
Definition SG_PASSACTION_LOAD_COLOR : Z :=
  Z.lor (Z.lor (Z.lor (Z.shiftl 1 6) (Z.shiftl 1 7)) (Z.shiftl 1 8)) (Z.shiftl 1 9).
Definition SG_PASSACTION_LOAD_DEPTH : Z := Z.shiftl 1 10.
Definition SG_PASSACTION_LOAD_STENCIL : Z := Z.shiftl 1 11.
Definition SG_PASSACTION_LOAD_DEPTH_STENCIL : Z :=
  Z.lor (Z.shiftl 1 10) (Z.shiftl 1 11).
Definition SG_PASSACTION_LOAD_ALL : Z :=
  Z.lor SG_PASSACTION_LOAD_COLOR SG_PASSACTION_LOAD_DEPTH_STENCIL.

(** The six attachments of a pass and the two bits the enumeration gives
    each of them. *)
Inductive attachment : Set :=
| ATT_COLOR0 | ATT_COLOR1 | ATT_COLOR2 | ATT_COLOR3 | ATT_DEPTH | ATT_STENCIL.

#[export] Instance attachment_eq_dec : EqDecision attachment.
Proof. solve_decision. Defined.

Definition all_attachments : list attachment :=
  [ATT_COLOR0; ATT_COLOR1; ATT_COLOR2; ATT_COLOR3; ATT_DEPTH; ATT_STENCIL].

Definition clear_bit (a : attachment) : Z :=
  match a with
  | ATT_COLOR0 => SG_PASSACTION_CLEAR_COLOR0
  | ATT_COLOR1 => SG_PASSACTION_CLEAR_COLOR1
  | ATT_COLOR2 => SG_PASSACTION_CLEAR_COLOR2
  | ATT_COLOR3 => SG_PASSACTION_CLEAR_COLOR3
  | ATT_DEPTH => SG_PASSACTION_CLEAR_DEPTH
  | ATT_STENCIL => SG_PASSACTION_CLEAR_STENCIL
  end.

Definition load_bit (a : attachment) : Z :=
  match a with
  | ATT_COLOR0 => SG_PASSACTION_LOAD_COLOR0
  | ATT_COLOR1 => SG_PASSACTION_LOAD_COLOR1
  | ATT_COLOR2 => SG_PASSACTION_LOAD_COLOR2
  | ATT_COLOR3 => SG_PASSACTION_LOAD_COLOR3
  | ATT_DEPTH => SG_PASSACTION_LOAD_DEPTH
  | ATT_STENCIL => SG_PASSACTION_LOAD_STENCIL
  end.

(** What a mask says about one attachment. *)
Inductive att_action : Set :=
| ACT_DONT_CARE | ACT_CLEAR | ACT_LOAD | ACT_CLEAR_AND_LOAD.

Definition has_bits (mask bits : Z) : bool := negb (Z.land mask bits =? 0).

Definition action_of (mask : Z) (a : attachment) : att_action :=
  match has_bits mask (clear_bit a), has_bits mask (load_bit a) with
  | false, false => ACT_DONT_CARE
  | true, false => ACT_CLEAR
  | false, true => ACT_LOAD
  | true, true => ACT_CLEAR_AND_LOAD
  end.

Definition bits_of (a : attachment) (x : att_action) : Z :=
  match x with
  | ACT_DONT_CARE => 0
  | ACT_CLEAR => clear_bit a
  | ACT_LOAD => load_bit a
  | ACT_CLEAR_AND_LOAD => Z.lor (clear_bit a) (load_bit a)
  end.

(** The mask that gives every attachment the action [f] chooses for it. *)
Definition mask_of (f : attachment → att_action) : Z :=
  foldr (λ a m, Z.lor (bits_of a (f a)) m) 0 all_attachments.

(** ** [sg_pass_action] *)

Record sg_pass_action : Type := {
  pa_color : list (list f32);   (* float color[SG_MAX_COLOR_ATTACHMENTS][4] *)
  pa_depth : f32;
  pa_stencil : Z;               (* uint8_t *)
  pa_actions : Z                (* sg_pass_action_bits *)
}.

Definition PA_color : field sg_pass_action (list (list f32)) :=
  Field pa_color (λ v s, {| pa_color := v; pa_depth := pa_depth s;
                            pa_stencil := pa_stencil s; pa_actions := pa_actions s |}).
Definition PA_depth : field sg_pass_action f32 :=
  Field pa_depth (λ v s, {| pa_color := pa_color s; pa_depth := v;
                            pa_stencil := pa_stencil s; pa_actions := pa_actions s |}).
Definition PA_stencil : field sg_pass_action Z :=
  Field pa_stencil (λ v s, {| pa_color := pa_color s; pa_depth := pa_depth s;
                              pa_stencil := v; pa_actions := pa_actions s |}).
Definition PA_actions : field sg_pass_action Z :=
  Field pa_actions (λ v s, {| pa_color := pa_color s; pa_depth := pa_depth s;
                              pa_stencil := pa_stencil s; pa_actions := v |}).

(** The object has the shape its C type declares. *)
Definition pass_action_shaped (pa : sg_pass_action) : Prop :=
  length (pa_color pa) = Z.to_nat SG_MAX_COLOR_ATTACHMENTS ∧
  Forall (λ row, length row = 4%nat) (pa_color pa).

Definition sg_init_pass_action : prog sg_pass_action unit :=
  for_range 0 SG_MAX_COLOR_ATTACHMENTS (λ att_index,
    for_range 0 3 (λ c,
      within PA_color (at_index att_index (store_at c f32_0_5))) ;;
    within PA_color (at_index att_index (store_at 3 f32_1_0))) ;;
  store PA_depth f32_1_0 ;;
  store PA_stencil 0 ;;
  store PA_actions SG_PASSACTION_CLEAR_ALL.

(** ** [sg_desc] *)

Record sg_desc : Type := {
  d_width : Z;
  d_height : Z;
  d_sample_count : Z;
  d_resource_pool_size : list Z   (* int resource_pool_size[SG_NUM_RESOURCETYPES] *)
}.

Definition D_width : field sg_desc Z :=
  Field d_width (λ v s, {| d_width := v; d_height := d_height s;
    d_sample_count := d_sample_count s; d_resource_pool_size := d_resource_pool_size s |}).
Definition D_height : field sg_desc Z :=
  Field d_height (λ v s, {| d_width := d_width s; d_height := v;
    d_sample_count := d_sample_count s; d_resource_pool_size := d_resource_pool_size s |}).
Definition D_sample_count : field sg_desc Z :=
  Field d_sample_count (λ v s, {| d_width := d_width s; d_height := d_height s;
    d_sample_count := v; d_resource_pool_size := d_resource_pool_size s |}).
Definition D_resource_pool_size : field sg_desc (list Z) :=
  Field d_resource_pool_size (λ v s, {| d_width := d_width s; d_height := d_height s;
    d_sample_count := d_sample_count s; d_resource_pool_size := v |}).

Definition desc_shaped (d : sg_desc) : Prop :=
  length (d_resource_pool_size d) = Z.to_nat SG_NUM_RESOURCETYPES.

Definition sg_init_desc : prog sg_desc unit :=
  store D_width 640 ;;
  store D_height 400 ;;
  store D_sample_count 1 ;;
  for_range 0 SG_NUM_RESOURCETYPES (λ i,
    within D_resource_pool_size (store_at i 128)).

(** The slot of the pool-size array that belongs to a resource type. *)
Definition resource_type_index (t : sg_resource_type) : Z :=
  match t with
  | SG_RESOURCETYPE_BUFFER => 0
  | SG_RESOURCETYPE_IMAGE => 1
  | SG_RESOURCETYPE_SHADER => 2
  | SG_RESOURCETYPE_PIPELINE => 3
  | SG_RESOURCETYPE_PASS => 4
  end.

(** ** Enumerations used by the descriptors *)

Inductive sg_buffer_type : Set :=
| SG_BUFFERTYPE_VERTEX_BUFFER
| SG_BUFFERTYPE_INDEX_BUFFER.

Inductive sg_image_type : Set :=
| SG_IMAGETYPE_INVALID
| SG_IMAGETYPE_2D
| SG_IMAGETYPE_CUBE
| SG_IMAGETYPE_3D
| SG_IMAGETYPE_ARRAY.

Inductive sg_usage : Set :=
| SG_USAGE_IMMUTABLE
| SG_USAGE_DYNAMIC
| SG_USAGE_STREAM.

Inductive sg_vertex_format : Set :=
| SG_VERTEXFORMAT_INVALID
| SG_VERTEXFORMAT_FLOAT
| SG_VERTEXFORMAT_FLOAT2
| SG_VERTEXFORMAT_FLOAT3
| SG_VERTEXFORMAT_FLOAT4
| SG_VERTEXFORMAT_BYTE4
| SG_VERTEXFORMAT_BYTE4N
| SG_VERTEXFORMAT_UBYTE4
| SG_VERTEXFORMAT_UBYTE4N
| SG_VERTEXFORMAT_SHORT2
| SG_VERTEXFORMAT_SHORT2N
| SG_VERTEXFORMAT_SHORT4
| SG_VERTEXFORMAT_SHORT4N
| SG_VERTEXFORMAT_UINT10_N2.

#[export] Instance sg_vertex_format_eq_dec : EqDecision sg_vertex_format.
Proof. solve_decision. Defined.

Inductive sg_uniform_type : Set :=
| SG_UNIFORMTYPE_INVALID
| SG_UNIFORMTYPE_FLOAT
| SG_UNIFORMTYPE_FLOAT2
| SG_UNIFORMTYPE_FLOAT3
| SG_UNIFORMTYPE_FLOAT4
| SG_UNIFORMTYPE_MAT4.

Inductive sg_face : Set :=
| SG_FACE_FRONT
| SG_FACE_BACK
| SG_FACE_BOTH.

Inductive sg_compare_func : Set :=
| SG_COMPAREFUNC_NEVER
| SG_COMPAREFUNC_LESS
| SG_COMPAREFUNC_EQUAL
| SG_COMPAREFUNC_LESS_EQUAL
| SG_COMPAREFUNC_GREATER
| SG_COMPAREFUNC_NOT_EQUAL
| SG_COMPAREFUNC_GREATER_EQUAL
| SG_COMPAREFUNC_ALWAYS.

Inductive sg_stencil_op : Set :=
| SG_STENCILOP_KEEP
| SG_STENCILOP_ZERO
| SG_STENCILOP_REPLACE
| SG_STENCILOP_INCR_CLAMP
| SG_STENCILOP_DECR_CLAMP
| SG_STENCILOP_INVERT
| SG_STENCILOP_INCR_WRAP
| SG_STENCILOP_DECR_WRAP.

Inductive sg_blend_factor : Set :=
| SG_BLENDFACTOR_ZERO
| SG_BLENDFACTOR_ONE
| SG_BLENDFACTOR_SRC_COLOR
| SG_BLENDFACTOR_ONE_MINUS_SRC_COLOR
| SG_BLENDFACTOR_SRC_ALPHA
| SG_BLENDFACTOR_ONE_MINUS_SRC_ALPHA
| SG_BLENDFACTOR_DST_COLOR
| SG_BLENDFACTOR_ONE_MINUS_DST_COLOR
| SG_BLENDFACTOR_DST_ALPHA
| SG_BLENDFACTOR_ONE_MINUS_DST_ALPHA
| SG_BLENDFACTOR_SRC_ALPHA_SATURATED
| SG_BLENDFACTOR_BLEND_COLOR
| SG_BLENDFACTOR_ONE_MINUS_BLEND_COLOR
| SG_BLENDFACTOR_BLEND_ALPHA
| SG_BLENDFACTOR_ONE_MINUS_BLEND_ALPHA.

Inductive sg_blend_op : Set :=
| SG_BLENDOP_ADD
| SG_BLENDOP_SUBTRACT
| SG_BLENDOP_REVERSE_SUBTRACT.

Inductive sg_step_func : Set :=
| SG_STEPFUNC_PER_VERTEX
| SG_STEPFUNC_PER_INSTANCE.

Definition SG_COLORMASK_R : Z := Z.shiftl 1 0.
Definition SG_COLORMASK_G : Z := Z.shiftl 1 1.
Definition SG_COLORMASK_B : Z := Z.shiftl 1 2.
Definition SG_COLORMASK_A : Z := Z.shiftl 1 3.
Definition SG_COLORMASK_RGBA : Z := 0xF.

(** ** Render state structures *)

Record sg_stencil_state : Type := {
  ss_fail_op : sg_stencil_op;
  ss_depth_fail_op : sg_stencil_op;
  ss_pass_op : sg_stencil_op;
  ss_compare_func : sg_compare_func
}.

Definition SS_fail_op : field sg_stencil_state sg_stencil_op :=
  Field ss_fail_op (λ v s, {| ss_fail_op := v; ss_depth_fail_op := ss_depth_fail_op s;
    ss_pass_op := ss_pass_op s; ss_compare_func := ss_compare_func s |}).
Definition SS_depth_fail_op : field sg_stencil_state sg_stencil_op :=
  Field ss_depth_fail_op (λ v s, {| ss_fail_op := ss_fail_op s; ss_depth_fail_op := v;
    ss_pass_op := ss_pass_op s; ss_compare_func := ss_compare_func s |}).
Definition SS_pass_op : field sg_stencil_state sg_stencil_op :=
  Field ss_pass_op (λ v s, {| ss_fail_op := ss_fail_op s;
    ss_depth_fail_op := ss_depth_fail_op s; ss_pass_op := v;
    ss_compare_func := ss_compare_func s |}).
Definition SS_compare_func : field sg_stencil_state sg_compare_func :=
  Field ss_compare_func (λ v s, {| ss_fail_op := ss_fail_op s;
    ss_depth_fail_op := ss_depth_fail_op s; ss_pass_op := ss_pass_op s;
    ss_compare_func := v |}).

Record sg_depth_stencil_state : Type := {
  ds_stencil_front : sg_stencil_state;
  ds_stencil_back : sg_stencil_state;
  ds_depth_compare_func : sg_compare_func;
  ds_depth_write_enabled : bool;
  ds_stencil_enabled : bool;
  ds_stencil_read_mask : Z;    (* uint8_t *)
  ds_stencil_write_mask : Z;   (* uint8_t *)
  ds_stencil_ref : Z           (* uint8_t *)
}.

Definition DS_stencil_front : field sg_depth_stencil_state sg_stencil_state :=
  Field ds_stencil_front (λ v s, {| ds_stencil_front := v;
    ds_stencil_back := ds_stencil_back s;
    ds_depth_compare_func := ds_depth_compare_func s;
    ds_depth_write_enabled := ds_depth_write_enabled s;
    ds_stencil_enabled := ds_stencil_enabled s;
    ds_stencil_read_mask := ds_stencil_read_mask s;
    ds_stencil_write_mask := ds_stencil_write_mask s;
    ds_stencil_ref := ds_stencil_ref s |}).
Definition DS_stencil_back : field sg_depth_stencil_state sg_stencil_state :=
  Field ds_stencil_back (λ v s, {| ds_stencil_front := ds_stencil_front s;
    ds_stencil_back := v;
    ds_depth_compare_func := ds_depth_compare_func s;
    ds_depth_write_enabled := ds_depth_write_enabled s;
    ds_stencil_enabled := ds_stencil_enabled s;
    ds_stencil_read_mask := ds_stencil_read_mask s;
    ds_stencil_write_mask := ds_stencil_write_mask s;
    ds_stencil_ref := ds_stencil_ref s |}).
Definition DS_depth_compare_func : field sg_depth_stencil_state sg_compare_func :=
  Field ds_depth_compare_func (λ v s, {| ds_stencil_front := ds_stencil_front s;
    ds_stencil_back := ds_stencil_back s;
    ds_depth_compare_func := v;
    ds_depth_write_enabled := ds_depth_write_enabled s;
    ds_stencil_enabled := ds_stencil_enabled s;
    ds_stencil_read_mask := ds_stencil_read_mask s;
    ds_stencil_write_mask := ds_stencil_write_mask s;
    ds_stencil_ref := ds_stencil_ref s |}).
Definition DS_depth_write_enabled : field sg_depth_stencil_state bool :=
  Field ds_depth_write_enabled (λ v s, {| ds_stencil_front := ds_stencil_front s;
    ds_stencil_back := ds_stencil_back s;
    ds_depth_compare_func := ds_depth_compare_func s;
    ds_depth_write_enabled := v;
    ds_stencil_enabled := ds_stencil_enabled s;
    ds_stencil_read_mask := ds_stencil_read_mask s;
    ds_stencil_write_mask := ds_stencil_write_mask s;
    ds_stencil_ref := ds_stencil_ref s |}).
Definition DS_stencil_enabled : field sg_depth_stencil_state bool :=
  Field ds_stencil_enabled (λ v s, {| ds_stencil_front := ds_stencil_front s;
    ds_stencil_back := ds_stencil_back s;
    ds_depth_compare_func := ds_depth_compare_func s;
    ds_depth_write_enabled := ds_depth_write_enabled s;
    ds_stencil_enabled := v;
    ds_stencil_read_mask := ds_stencil_read_mask s;
    ds_stencil_write_mask := ds_stencil_write_mask s;
    ds_stencil_ref := ds_stencil_ref s |}).
Definition DS_stencil_read_mask : field sg_depth_stencil_state Z :=
  Field ds_stencil_read_mask (λ v s, {| ds_stencil_front := ds_stencil_front s;
    ds_stencil_back := ds_stencil_back s;
    ds_depth_compare_func := ds_depth_compare_func s;
    ds_depth_write_enabled := ds_depth_write_enabled s;
    ds_stencil_enabled := ds_stencil_enabled s;
    ds_stencil_read_mask := v;
    ds_stencil_write_mask := ds_stencil_write_mask s;
    ds_stencil_ref := ds_stencil_ref s |}).
Definition DS_stencil_write_mask : field sg_depth_stencil_state Z :=
  Field ds_stencil_write_mask (λ v s, {| ds_stencil_front := ds_stencil_front s;
    ds_stencil_back := ds_stencil_back s;
    ds_depth_compare_func := ds_depth_compare_func s;
    ds_depth_write_enabled := ds_depth_write_enabled s;
    ds_stencil_enabled := ds_stencil_enabled s;
    ds_stencil_read_mask := ds_stencil_read_mask s;
    ds_stencil_write_mask := v;
    ds_stencil_ref := ds_stencil_ref s |}).
Definition DS_stencil_ref : field sg_depth_stencil_state Z :=
  Field ds_stencil_ref (λ v s, {| ds_stencil_front := ds_stencil_front s;
    ds_stencil_back := ds_stencil_back s;
    ds_depth_compare_func := ds_depth_compare_func s;
    ds_depth_write_enabled := ds_depth_write_enabled s;
    ds_stencil_enabled := ds_stencil_enabled s;
    ds_stencil_read_mask := ds_stencil_read_mask s;
    ds_stencil_write_mask := ds_stencil_write_mask s;
    ds_stencil_ref := v |}).

Record sg_blend_state : Type := {
  bs_enabled : bool;
  bs_src_factor_rgb : sg_blend_factor;
  bs_dst_factor_rgb : sg_blend_factor;
  bs_op_rgb : sg_blend_op;
  bs_src_factor_alpha : sg_blend_factor;
  bs_dst_factor_alpha : sg_blend_factor;
  bs_op_alpha : sg_blend_op;
  bs_color_write_mask : Z;     (* uint8_t *)
  bs_blend_color : list f32    (* float blend_color[4] *)
}.

Definition BS_enabled : field sg_blend_state bool :=
  Field bs_enabled (λ v s, {| bs_enabled := v;
    bs_src_factor_rgb := bs_src_factor_rgb s; bs_dst_factor_rgb := bs_dst_factor_rgb s;
    bs_op_rgb := bs_op_rgb s; bs_src_factor_alpha := bs_src_factor_alpha s;
    bs_dst_factor_alpha := bs_dst_factor_alpha s; bs_op_alpha := bs_op_alpha s;
    bs_color_write_mask := bs_color_write_mask s; bs_blend_color := bs_blend_color s |}).
Definition BS_src_factor_rgb : field sg_blend_state sg_blend_factor :=
  Field bs_src_factor_rgb (λ v s, {| bs_enabled := bs_enabled s;
    bs_src_factor_rgb := v; bs_dst_factor_rgb := bs_dst_factor_rgb s;
    bs_op_rgb := bs_op_rgb s; bs_src_factor_alpha := bs_src_factor_alpha s;
    bs_dst_factor_alpha := bs_dst_factor_alpha s; bs_op_alpha := bs_op_alpha s;
    bs_color_write_mask := bs_color_write_mask s; bs_blend_color := bs_blend_color s |}).
Definition BS_dst_factor_rgb : field sg_blend_state sg_blend_factor :=
  Field bs_dst_factor_rgb (λ v s, {| bs_enabled := bs_enabled s;
    bs_src_factor_rgb := bs_src_factor_rgb s; bs_dst_factor_rgb := v;
    bs_op_rgb := bs_op_rgb s; bs_src_factor_alpha := bs_src_factor_alpha s;
    bs_dst_factor_alpha := bs_dst_factor_alpha s; bs_op_alpha := bs_op_alpha s;
    bs_color_write_mask := bs_color_write_mask s; bs_blend_color := bs_blend_color s |}).
Definition BS_op_rgb : field sg_blend_state sg_blend_op :=
  Field bs_op_rgb (λ v s, {| bs_enabled := bs_enabled s;
    bs_src_factor_rgb := bs_src_factor_rgb s; bs_dst_factor_rgb := bs_dst_factor_rgb s;
    bs_op_rgb := v; bs_src_factor_alpha := bs_src_factor_alpha s;
    bs_dst_factor_alpha := bs_dst_factor_alpha s; bs_op_alpha := bs_op_alpha s;
    bs_color_write_mask := bs_color_write_mask s; bs_blend_color := bs_blend_color s |}).
Definition BS_src_factor_alpha : field sg_blend_state sg_blend_factor :=
  Field bs_src_factor_alpha (λ v s, {| bs_enabled := bs_enabled s;
    bs_src_factor_rgb := bs_src_factor_rgb s; bs_dst_factor_rgb := bs_dst_factor_rgb s;
    bs_op_rgb := bs_op_rgb s; bs_src_factor_alpha := v;
    bs_dst_factor_alpha := bs_dst_factor_alpha s; bs_op_alpha := bs_op_alpha s;
    bs_color_write_mask := bs_color_write_mask s; bs_blend_color := bs_blend_color s |}).
Definition BS_dst_factor_alpha : field sg_blend_state sg_blend_factor :=
  Field bs_dst_factor_alpha (λ v s, {| bs_enabled := bs_enabled s;
    bs_src_factor_rgb := bs_src_factor_rgb s; bs_dst_factor_rgb := bs_dst_factor_rgb s;
    bs_op_rgb := bs_op_rgb s; bs_src_factor_alpha := bs_src_factor_alpha s;
    bs_dst_factor_alpha := v; bs_op_alpha := bs_op_alpha s;
    bs_color_write_mask := bs_color_write_mask s; bs_blend_color := bs_blend_color s |}).
Definition BS_op_alpha : field sg_blend_state sg_blend_op :=
  Field bs_op_alpha (λ v s, {| bs_enabled := bs_enabled s;
    bs_src_factor_rgb := bs_src_factor_rgb s; bs_dst_factor_rgb := bs_dst_factor_rgb s;
    bs_op_rgb := bs_op_rgb s; bs_src_factor_alpha := bs_src_factor_alpha s;
    bs_dst_factor_alpha := bs_dst_factor_alpha s; bs_op_alpha := v;
    bs_color_write_mask := bs_color_write_mask s; bs_blend_color := bs_blend_color s |}).
Definition BS_color_write_mask : field sg_blend_state Z :=
  Field bs_color_write_mask (λ v s, {| bs_enabled := bs_enabled s;
    bs_src_factor_rgb := bs_src_factor_rgb s; bs_dst_factor_rgb := bs_dst_factor_rgb s;
    bs_op_rgb := bs_op_rgb s; bs_src_factor_alpha := bs_src_factor_alpha s;
    bs_dst_factor_alpha := bs_dst_factor_alpha s; bs_op_alpha := bs_op_alpha s;
    bs_color_write_mask := v; bs_blend_color := bs_blend_color s |}).
Definition BS_blend_color : field sg_blend_state (list f32) :=
  Field bs_blend_color (λ v s, {| bs_enabled := bs_enabled s;
    bs_src_factor_rgb := bs_src_factor_rgb s; bs_dst_factor_rgb := bs_dst_factor_rgb s;
    bs_op_rgb := bs_op_rgb s; bs_src_factor_alpha := bs_src_factor_alpha s;
    bs_dst_factor_alpha := bs_dst_factor_alpha s; bs_op_alpha := bs_op_alpha s;
    bs_color_write_mask := bs_color_write_mask s; bs_blend_color := v |}).

Record sg_rasterizer_state : Type := {
  rs_cull_face_enabled : bool;
  rs_scissor_test_enabled : bool;
  rs_dither_enabled : bool;
  rs_alpha_to_coverage_enabled : bool;
  rs_cull_face : sg_face
}.

Definition RS_cull_face_enabled : field sg_rasterizer_state bool :=
  Field rs_cull_face_enabled (λ v s, {| rs_cull_face_enabled := v;
    rs_scissor_test_enabled := rs_scissor_test_enabled s;
    rs_dither_enabled := rs_dither_enabled s;
    rs_alpha_to_coverage_enabled := rs_alpha_to_coverage_enabled s;
    rs_cull_face := rs_cull_face s |}).
Definition RS_scissor_test_enabled : field sg_rasterizer_state bool :=
  Field rs_scissor_test_enabled (λ v s, {| rs_cull_face_enabled := rs_cull_face_enabled s;
    rs_scissor_test_enabled := v;
    rs_dither_enabled := rs_dither_enabled s;
    rs_alpha_to_coverage_enabled := rs_alpha_to_coverage_enabled s;
    rs_cull_face := rs_cull_face s |}).
Definition RS_dither_enabled : field sg_rasterizer_state bool :=
  Field rs_dither_enabled (λ v s, {| rs_cull_face_enabled := rs_cull_face_enabled s;
    rs_scissor_test_enabled := rs_scissor_test_enabled s;
    rs_dither_enabled := v;
    rs_alpha_to_coverage_enabled := rs_alpha_to_coverage_enabled s;
    rs_cull_face := rs_cull_face s |}).
Definition RS_alpha_to_coverage_enabled : field sg_rasterizer_state bool :=
  Field rs_alpha_to_coverage_enabled (λ v s, {|
    rs_cull_face_enabled := rs_cull_face_enabled s;
    rs_scissor_test_enabled := rs_scissor_test_enabled s;
    rs_dither_enabled := rs_dither_enabled s;
    rs_alpha_to_coverage_enabled := v;
    rs_cull_face := rs_cull_face s |}).
Definition RS_cull_face : field sg_rasterizer_state sg_face :=
  Field rs_cull_face (λ v s, {| rs_cull_face_enabled := rs_cull_face_enabled s;
    rs_scissor_test_enabled := rs_scissor_test_enabled s;
    rs_dither_enabled := rs_dither_enabled s;
    rs_alpha_to_coverage_enabled := rs_alpha_to_coverage_enabled s;
    rs_cull_face := v |}).

(** ** [sg_vertex_attr] *)

Record sg_vertex_attr : Type := {
  va_name : c_string;
  va_format : sg_vertex_format
}.

Definition VA_name : field sg_vertex_attr c_string :=
  Field va_name (λ v s, {| va_name := v; va_format := va_format s |}).
Definition VA_format : field sg_vertex_attr sg_vertex_format :=
  Field va_format (λ v s, {| va_name := va_name s; va_format := v |}).

(** ** [sg_buffer_desc] *)

Record sg_buffer_desc : Type := {
  bd_size : Z;
  bd_type : sg_buffer_type;
  bd_usage : sg_usage;
  bd_data_ptr : void_ptr;
  bd_data_size : Z
}.

Definition BD_size : field sg_buffer_desc Z :=
  Field bd_size (λ v s, {| bd_size := v; bd_type := bd_type s; bd_usage := bd_usage s;
    bd_data_ptr := bd_data_ptr s; bd_data_size := bd_data_size s |}).
Definition BD_type : field sg_buffer_desc sg_buffer_type :=
  Field bd_type (λ v s, {| bd_size := bd_size s; bd_type := v; bd_usage := bd_usage s;
    bd_data_ptr := bd_data_ptr s; bd_data_size := bd_data_size s |}).
Definition BD_usage : field sg_buffer_desc sg_usage :=
  Field bd_usage (λ v s, {| bd_size := bd_size s; bd_type := bd_type s; bd_usage := v;
    bd_data_ptr := bd_data_ptr s; bd_data_size := bd_data_size s |}).
Definition BD_data_ptr : field sg_buffer_desc void_ptr :=
  Field bd_data_ptr (λ v s, {| bd_size := bd_size s; bd_type := bd_type s;
    bd_usage := bd_usage s; bd_data_ptr := v; bd_data_size := bd_data_size s |}).
Definition BD_data_size : field sg_buffer_desc Z :=
  Field bd_data_size (λ v s, {| bd_size := bd_size s; bd_type := bd_type s;
    bd_usage := bd_usage s; bd_data_ptr := bd_data_ptr s; bd_data_size := v |}).

Definition sg_init_buffer_desc : prog sg_buffer_desc unit :=
  store BD_size 0 ;;
  store BD_type SG_BUFFERTYPE_VERTEX_BUFFER ;;
  store BD_usage SG_USAGE_IMMUTABLE ;;
  store BD_data_ptr None ;;
  store BD_data_size 0.

(** Modelled from the spec: [sg_update_buffer] is only declared in the
    header; the spec permits updates after creation "only for resources
    created with a mutable usage (dynamic/stream)". *)
Definition usage_permits_update (u : sg_usage) : bool :=
  match u with
  | SG_USAGE_IMMUTABLE => false
  | SG_USAGE_DYNAMIC => true
  | SG_USAGE_STREAM => true
  end.

(** ** Shader descriptors *)

Record sg_shader_uniform_desc : Type := {
  ud_name : c_string;
  ud_type : sg_uniform_type;
  ud_offset : Z;
  ud_array_size : Z
}.

Definition UD_name : field sg_shader_uniform_desc c_string :=
  Field ud_name (λ v s, {| ud_name := v; ud_type := ud_type s;
    ud_offset := ud_offset s; ud_array_size := ud_array_size s |}).
Definition UD_type : field sg_shader_uniform_desc sg_uniform_type :=
  Field ud_type (λ v s, {| ud_name := ud_name s; ud_type := v;
    ud_offset := ud_offset s; ud_array_size := ud_array_size s |}).
Definition UD_offset : field sg_shader_uniform_desc Z :=
  Field ud_offset (λ v s, {| ud_name := ud_name s; ud_type := ud_type s;
    ud_offset := v; ud_array_size := ud_array_size s |}).
Definition UD_array_size : field sg_shader_uniform_desc Z :=
  Field ud_array_size (λ v s, {| ud_name := ud_name s; ud_type := ud_type s;
    ud_offset := ud_offset s; ud_array_size := v |}).

Record sg_shader_uniform_block_desc : Type := {
  ub_num_uniforms : Z;
  ub_uniforms : list sg_shader_uniform_desc   (* [SG_MAX_UNIFORMS] *)
}.

Definition UB_num_uniforms : field sg_shader_uniform_block_desc Z :=
  Field ub_num_uniforms (λ v s, {| ub_num_uniforms := v; ub_uniforms := ub_uniforms s |}).
Definition UB_uniforms : field sg_shader_uniform_block_desc (list sg_shader_uniform_desc) :=
  Field ub_uniforms (λ v s, {| ub_num_uniforms := ub_num_uniforms s; ub_uniforms := v |}).

Record sg_shader_image_desc : Type := {
  im_name : c_string;
  im_type : sg_image_type
}.

Definition IM_name : field sg_shader_image_desc c_string :=
  Field im_name (λ v s, {| im_name := v; im_type := im_type s |}).
Definition IM_type : field sg_shader_image_desc sg_image_type :=
  Field im_type (λ v s, {| im_name := im_name s; im_type := v |}).

Record sg_shader_stage_desc : Type := {
  st_source : c_string;
  st_num_uniform_blocks : Z;
  st_num_textures : Z;
  st_uniform_blocks : list sg_shader_uniform_block_desc;  (* [SG_MAX_SHADERSTAGE_UBS] *)
  st_images : list sg_shader_image_desc                   (* [SG_MAX_SHADERSTAGE_IMAGES] *)
}.

Definition ST_source : field sg_shader_stage_desc c_string :=
  Field st_source (λ v s, {| st_source := v;
    st_num_uniform_blocks := st_num_uniform_blocks s;
    st_num_textures := st_num_textures s;
    st_uniform_blocks := st_uniform_blocks s; st_images := st_images s |}).
Definition ST_num_uniform_blocks : field sg_shader_stage_desc Z :=
  Field st_num_uniform_blocks (λ v s, {| st_source := st_source s;
    st_num_uniform_blocks := v;
    st_num_textures := st_num_textures s;
    st_uniform_blocks := st_uniform_blocks s; st_images := st_images s |}).
Definition ST_num_textures : field sg_shader_stage_desc Z :=
  Field st_num_textures (λ v s, {| st_source := st_source s;
    st_num_uniform_blocks := st_num_uniform_blocks s;
    st_num_textures := v;
    st_uniform_blocks := st_uniform_blocks s; st_images := st_images s |}).
Definition ST_uniform_blocks :
    field sg_shader_stage_desc (list sg_shader_uniform_block_desc) :=
  Field st_uniform_blocks (λ v s, {| st_source := st_source s;
    st_num_uniform_blocks := st_num_uniform_blocks s;
    st_num_textures := st_num_textures s;
    st_uniform_blocks := v; st_images := st_images s |}).
Definition ST_images : field sg_shader_stage_desc (list sg_shader_image_desc) :=
  Field st_images (λ v s, {| st_source := st_source s;
    st_num_uniform_blocks := st_num_uniform_blocks s;
    st_num_textures := st_num_textures s;
    st_uniform_blocks := st_uniform_blocks s; st_images := v |}).

Definition _sg_init_shader_stage_desc : prog sg_shader_stage_desc unit :=
  store ST_source None ;;
  store ST_num_uniform_blocks 0 ;;
  store ST_num_textures 0 ;;
  for_range 0 SG_MAX_SHADERSTAGE_UBS (λ ub_index,
    within ST_uniform_blocks (at_index ub_index (
      store UB_num_uniforms 0 ;;
      for_range 0 SG_MAX_UNIFORMS (λ u_index,
        within UB_uniforms (at_index u_index (
          store UD_name None ;;
          store UD_type SG_UNIFORMTYPE_INVALID ;;
          store UD_offset 0 ;;
          store UD_array_size 1)))))) ;;
  for_range 0 SG_MAX_SHADERSTAGE_IMAGES (λ img_index,
    within ST_images (at_index img_index (
      store IM_name None ;;
      store IM_type SG_IMAGETYPE_INVALID))).

Record sg_shader_desc : Type := {
  sd_vs : sg_shader_stage_desc;
  sd_fs : sg_shader_stage_desc;
  sd_num_attrs : Z;
  sd_attrs : list sg_vertex_attr    (* [SG_MAX_VERTEX_ATTRIBUTES] *)
}.

Definition SD_vs : field sg_shader_desc sg_shader_stage_desc :=
  Field sd_vs (λ v s, {| sd_vs := v; sd_fs := sd_fs s;
    sd_num_attrs := sd_num_attrs s; sd_attrs := sd_attrs s |}).
Definition SD_fs : field sg_shader_desc sg_shader_stage_desc :=
  Field sd_fs (λ v s, {| sd_vs := sd_vs s; sd_fs := v;
    sd_num_attrs := sd_num_attrs s; sd_attrs := sd_attrs s |}).
Definition SD_num_attrs : field sg_shader_desc Z :=
  Field sd_num_attrs (λ v s, {| sd_vs := sd_vs s; sd_fs := sd_fs s;
    sd_num_attrs := v; sd_attrs := sd_attrs s |}).
Definition SD_attrs : field sg_shader_desc (list sg_vertex_attr) :=
  Field sd_attrs (λ v s, {| sd_vs := sd_vs s; sd_fs := sd_fs s;
    sd_num_attrs := sd_num_attrs s; sd_attrs := v |}).

Definition sg_init_shader_desc : prog sg_shader_desc unit :=
  within SD_vs _sg_init_shader_stage_desc ;;
  within SD_fs _sg_init_shader_stage_desc ;;
  store SD_num_attrs 0 ;;
  for_range 0 SG_MAX_VERTEX_ATTRIBUTES (λ i,
    within SD_attrs (at_index i (
      store VA_name None ;;
      store VA_format SG_VERTEXFORMAT_INVALID))).

(** [desc->num_attrs++] happens while the element address is formed, the
    two stores go through that address afterwards.  The increment cannot
    overflow: the assertion before it bounds the counter by 16. *)
Definition sg_shader_desc_attr (name : c_string) (format : sg_vertex_format)
    : prog sg_shader_desc unit :=
  SOKOL_ASSERT (bool_decide (is_Some name) &&
                bool_decide (format ≠ SG_VERTEXFORMAT_INVALID)) ;;
  n ← load SD_num_attrs ;
  SOKOL_ASSERT (n <? SG_MAX_VERTEX_ATTRIBUTES) ;;
  store SD_num_attrs (n + 1) ;;
  within SD_attrs (at_index n (
    store VA_name name ;;
    store VA_format format)).

(** ** Pipeline descriptors *)

Record sg_vertex_layout : Type := {
  vl_num_attrs : Z;
  vl_attrs : list sg_vertex_attr;   (* [SG_MAX_VERTEX_ATTRIBUTES] *)
  vl_step_func : sg_step_func;
  vl_step_rate : Z
}.

Definition VL_num_attrs : field sg_vertex_layout Z :=
  Field vl_num_attrs (λ v s, {| vl_num_attrs := v; vl_attrs := vl_attrs s;
    vl_step_func := vl_step_func s; vl_step_rate := vl_step_rate s |}).
Definition VL_attrs : field sg_vertex_layout (list sg_vertex_attr) :=
  Field vl_attrs (λ v s, {| vl_num_attrs := vl_num_attrs s; vl_attrs := v;
    vl_step_func := vl_step_func s; vl_step_rate := vl_step_rate s |}).
Definition VL_step_func : field sg_vertex_layout sg_step_func :=
  Field vl_step_func (λ v s, {| vl_num_attrs := vl_num_attrs s; vl_attrs := vl_attrs s;
    vl_step_func := v; vl_step_rate := vl_step_rate s |}).
Definition VL_step_rate : field sg_vertex_layout Z :=
  Field vl_step_rate (λ v s, {| vl_num_attrs := vl_num_attrs s; vl_attrs := vl_attrs s;
    vl_step_func := vl_step_func s; vl_step_rate := v |}).

Record sg_pipeline_desc : Type := {
  pd_shader : sg_id;
  pd_layouts : list sg_vertex_layout;   (* [SG_MAX_SHADERSTAGE_BUFFERS] *)
  pd_depth_stencil : sg_depth_stencil_state;
  pd_blend : sg_blend_state;
  pd_rast : sg_rasterizer_state
}.

Definition PD_shader : field sg_pipeline_desc sg_id :=
  Field pd_shader (λ v s, {| pd_shader := v; pd_layouts := pd_layouts s;
    pd_depth_stencil := pd_depth_stencil s; pd_blend := pd_blend s;
    pd_rast := pd_rast s |}).
Definition PD_layouts : field sg_pipeline_desc (list sg_vertex_layout) :=
  Field pd_layouts (λ v s, {| pd_shader := pd_shader s; pd_layouts := v;
    pd_depth_stencil := pd_depth_stencil s; pd_blend := pd_blend s;
    pd_rast := pd_rast s |}).
Definition PD_depth_stencil : field sg_pipeline_desc sg_depth_stencil_state :=
  Field pd_depth_stencil (λ v s, {| pd_shader := pd_shader s; pd_layouts := pd_layouts s;
    pd_depth_stencil := v; pd_blend := pd_blend s;
    pd_rast := pd_rast s |}).
Definition PD_blend : field sg_pipeline_desc sg_blend_state :=
  Field pd_blend (λ v s, {| pd_shader := pd_shader s; pd_layouts := pd_layouts s;
    pd_depth_stencil := pd_depth_stencil s; pd_blend := v;
    pd_rast := pd_rast s |}).
Definition PD_rast : field sg_pipeline_desc sg_rasterizer_state :=
  Field pd_rast (λ v s, {| pd_shader := pd_shader s; pd_layouts := pd_layouts s;
    pd_depth_stencil := pd_depth_stencil s; pd_blend := pd_blend s;
    pd_rast := v |}).

Definition _sg_init_vertex_layout : prog sg_vertex_layout unit :=
  store VL_step_func SG_STEPFUNC_PER_VERTEX ;;
  store VL_step_rate 1 ;;
  store VL_num_attrs 0 ;;
  for_range 0 SG_MAX_VERTEX_ATTRIBUTES (λ i,
    within VL_attrs (at_index i (store VA_name None)) ;;
    within VL_attrs (at_index i (store VA_format SG_VERTEXFORMAT_INVALID))).

Definition _sg_init_stencil_state : prog sg_stencil_state unit :=
  store SS_fail_op SG_STENCILOP_KEEP ;;
  store SS_depth_fail_op SG_STENCILOP_KEEP ;;
  store SS_pass_op SG_STENCILOP_KEEP ;;
  store SS_compare_func SG_COMPAREFUNC_ALWAYS.

Definition _sg_init_depth_stencil_state : prog sg_depth_stencil_state unit :=
  within DS_stencil_front _sg_init_stencil_state ;;
  within DS_stencil_back _sg_init_stencil_state ;;
  store DS_depth_compare_func SG_COMPAREFUNC_ALWAYS ;;
  store DS_depth_write_enabled false ;;
  store DS_stencil_enabled false ;;
  store DS_stencil_read_mask 0xFF ;;
  store DS_stencil_write_mask 0xFF ;;
  store DS_stencil_ref 0.

Definition _sg_init_blend_state : prog sg_blend_state unit :=
  store BS_enabled false ;;
  store BS_src_factor_rgb SG_BLENDFACTOR_ONE ;;
  store BS_dst_factor_rgb SG_BLENDFACTOR_ZERO ;;
  store BS_op_rgb SG_BLENDOP_ADD ;;
  store BS_src_factor_alpha SG_BLENDFACTOR_ONE ;;
  store BS_dst_factor_alpha SG_BLENDFACTOR_ZERO ;;
  store BS_op_alpha SG_BLENDOP_ADD ;;
  store BS_color_write_mask SG_COLORMASK_RGBA ;;
  for_range 0 4 (λ i, within BS_blend_color (store_at i f32_1_0)).

Definition _sg_init_rasterizer_state : prog sg_rasterizer_state unit :=
  store RS_cull_face_enabled false ;;
  store RS_scissor_test_enabled false ;;
  store RS_dither_enabled true ;;
  store RS_alpha_to_coverage_enabled false ;;
  store RS_cull_face SG_FACE_BACK.

Definition sg_init_pipeline_desc : prog sg_pipeline_desc unit :=
  store PD_shader SG_INVALID_ID ;;
  for_range 0 SG_MAX_SHADERSTAGE_BUFFERS (λ i,
    within PD_layouts (at_index i _sg_init_vertex_layout)) ;;
  within PD_depth_stencil _sg_init_depth_stencil_state ;;
  within PD_blend _sg_init_blend_state ;;
  within PD_rast _sg_init_rasterizer_state.

(** The assertions run in the order of the source; the last one reads
    [desc->layouts[slot]], which the second one has put in bounds. *)
Definition sg_pipeline_desc_attr (slot : Z) (name : c_string)
    (format : sg_vertex_format) : prog sg_pipeline_desc unit :=
  SOKOL_ASSERT ((0 <=? slot) && (slot <? SG_MAX_SHADERSTAGE_BUFFERS)) ;;
  SOKOL_ASSERT (bool_decide (is_Some name)) ;;
  SOKOL_ASSERT (bool_decide (format ≠ SG_VERTEXFORMAT_INVALID)) ;;
  n ← within PD_layouts (at_index slot (load VL_num_attrs)) ;
  SOKOL_ASSERT (n <? SG_MAX_VERTEX_ATTRIBUTES) ;;
  within PD_layouts (at_index slot (
    k ← load VL_num_attrs ;
    store VL_num_attrs (k + 1) ;;
    within VL_attrs (at_index k (
      store VA_name name ;;
      store VA_format format)))).

(** The shape the C types give the two descriptors. *)
Definition shader_desc_shaped (d : sg_shader_desc) : Prop :=
  length (sd_attrs d) = Z.to_nat SG_MAX_VERTEX_ATTRIBUTES.

Definition vertex_layout_shaped (l : sg_vertex_layout) : Prop :=
  length (vl_attrs l) = Z.to_nat SG_MAX_VERTEX_ATTRIBUTES.

Definition pipeline_desc_shaped (d : sg_pipeline_desc) : Prop :=
  length (pd_layouts d) = Z.to_nat SG_MAX_SHADERSTAGE_BUFFERS ∧
  Forall vertex_layout_shaped (pd_layouts d).

(** What it means that a call has appended one attribute to the layout
    in [slot] of the descriptor [d] and touched nothing else: [r] is the
    outcome of the call. *)
Definition appends_one_attr (d : sg_pipeline_desc) (slot : Z) (name : c_string)
    (format : sg_vertex_format) (r : outcome sg_pipeline_desc unit) : Prop :=
  ∃ d' l l',
    r = Done tt d' ∧
    pd_layouts d !! Z.to_nat slot = Some l ∧
    pd_layouts d' !! Z.to_nat slot = Some l' ∧
    vl_num_attrs l' = vl_num_attrs l + 1 ∧
    vl_attrs l' !! Z.to_nat (vl_num_attrs l) =
      Some {| va_name := name; va_format := format |} ∧
    length (vl_attrs l') = length (vl_attrs l) ∧
    (∀ k, k ≠ Z.to_nat (vl_num_attrs l) → vl_attrs l' !! k = vl_attrs l !! k) ∧
    vl_step_func l' = vl_step_func l ∧
    vl_step_rate l' = vl_step_rate l ∧
    length (pd_layouts d') = length (pd_layouts d) ∧
    (∀ j, j ≠ Z.to_nat slot → pd_layouts d' !! j = pd_layouts d !! j) ∧
    pd_shader d' = pd_shader d ∧
    pd_depth_stencil d' = pd_depth_stencil d ∧
    pd_blend d' = pd_blend d ∧
    pd_rast d' = pd_rast d.

(** ** Objects for the examples

    Storage of the right shape with arbitrary contents, as a caller has
    it before the init functions run. *)

Definition raw_pass_action : sg_pass_action :=
  {| pa_color := replicate 4 (replicate 4 S754_nan);
     pa_depth := S754_nan; pa_stencil := 0xCD; pa_actions := 0xABC |}.

Definition raw_desc : sg_desc :=
  {| d_width := -1; d_height := -1; d_sample_count := -1;
     d_resource_pool_size := replicate 5 (-1) |}.

Definition raw_buffer_desc : sg_buffer_desc :=
  {| bd_size := -1; bd_type := SG_BUFFERTYPE_INDEX_BUFFER; bd_usage := SG_USAGE_STREAM;
     bd_data_ptr := Some 0xDEAD; bd_data_size := -1 |}.

Definition raw_vertex_attr : sg_vertex_attr :=
  {| va_name := Some "junk"%string; va_format := SG_VERTEXFORMAT_BYTE4 |}.

Definition raw_shader_stage_desc : sg_shader_stage_desc :=
  {| st_source := Some "junk"%string;
     st_num_uniform_blocks := -1;
     st_num_textures := -1;
     st_uniform_blocks := replicate 4
       {| ub_num_uniforms := -1;
          ub_uniforms := replicate 16
            {| ud_name := None; ud_type := SG_UNIFORMTYPE_MAT4;
               ud_offset := -1; ud_array_size := -1 |} |};
     st_images := replicate 12
       {| im_name := None; im_type := SG_IMAGETYPE_CUBE |} |}.

(** A shader descriptor whose attribute count is [n]. *)
Definition raw_shader_desc (n : Z) : sg_shader_desc :=
  {| sd_vs := raw_shader_stage_desc; sd_fs := raw_shader_stage_desc;
     sd_num_attrs := n; sd_attrs := replicate 16 raw_vertex_attr |}.

Definition raw_vertex_layout (n : Z) : sg_vertex_layout :=
  {| vl_num_attrs := n; vl_attrs := replicate 16 raw_vertex_attr;
     vl_step_func := SG_STEPFUNC_PER_INSTANCE; vl_step_rate := 7 |}.

Definition raw_stencil_state : sg_stencil_state :=
  {| ss_fail_op := SG_STENCILOP_ZERO; ss_depth_fail_op := SG_STENCILOP_INVERT;
     ss_pass_op := SG_STENCILOP_REPLACE; ss_compare_func := SG_COMPAREFUNC_NEVER |}.

(** A pipeline descriptor whose four layouts all have attribute count [n]. *)
Definition raw_pipeline_desc (n : Z) : sg_pipeline_desc :=
  {| pd_shader := 77;
     pd_layouts := replicate 4 (raw_vertex_layout n);
     pd_depth_stencil :=
       {| ds_stencil_front := raw_stencil_state; ds_stencil_back := raw_stencil_state;
          ds_depth_compare_func := SG_COMPAREFUNC_LESS;
          ds_depth_write_enabled := true; ds_stencil_enabled := true;
          ds_stencil_read_mask := 1; ds_stencil_write_mask := 2; ds_stencil_ref := 3 |};
     pd_blend :=
       {| bs_enabled := true;
          bs_src_factor_rgb := SG_BLENDFACTOR_SRC_ALPHA;
          bs_dst_factor_rgb := SG_BLENDFACTOR_ONE_MINUS_SRC_ALPHA;
          bs_op_rgb := SG_BLENDOP_SUBTRACT;
          bs_src_factor_alpha := SG_BLENDFACTOR_SRC_ALPHA;
          bs_dst_factor_alpha := SG_BLENDFACTOR_ONE_MINUS_SRC_ALPHA;
          bs_op_alpha := SG_BLENDOP_SUBTRACT;
          bs_color_write_mask := 0;
          bs_blend_color := replicate 4 S754_nan |};
     pd_rast :=
       {| rs_cull_face_enabled := true; rs_scissor_test_enabled := true;
          rs_dither_enabled := false; rs_alpha_to_coverage_enabled := true;
          rs_cull_face := SG_FACE_BOTH |} |}.

(** ** Descriptors as the init functions leave them *)

Definition default_vertex_attr : sg_vertex_attr :=
  {| va_name := None; va_format := SG_VERTEXFORMAT_INVALID |}.

Definition default_uniform_desc : sg_shader_uniform_desc :=
  {| ud_name := None; ud_type := SG_UNIFORMTYPE_INVALID;
     ud_offset := 0; ud_array_size := 1 |}.

Definition default_uniform_block_desc : sg_shader_uniform_block_desc :=
  {| ub_num_uniforms := 0;
     ub_uniforms := replicate (Z.to_nat SG_MAX_UNIFORMS) default_uniform_desc |}.

Definition default_image_desc : sg_shader_image_desc :=
  {| im_name := None; im_type := SG_IMAGETYPE_INVALID |}.

Definition default_shader_stage_desc : sg_shader_stage_desc :=
  {| st_source := None;
     st_num_uniform_blocks := 0;
     st_num_textures := 0;
     st_uniform_blocks :=
       replicate (Z.to_nat SG_MAX_SHADERSTAGE_UBS) default_uniform_block_desc;
     st_images := replicate (Z.to_nat SG_MAX_SHADERSTAGE_IMAGES) default_image_desc |}.

Definition default_shader_desc : sg_shader_desc :=
  {| sd_vs := default_shader_stage_desc;
     sd_fs := default_shader_stage_desc;
     sd_num_attrs := 0;
     sd_attrs := replicate (Z.to_nat SG_MAX_VERTEX_ATTRIBUTES) default_vertex_attr |}.

Definition default_vertex_layout : sg_vertex_layout :=
  {| vl_num_attrs := 0;
     vl_attrs := replicate (Z.to_nat SG_MAX_VERTEX_ATTRIBUTES) default_vertex_attr;
     vl_step_func := SG_STEPFUNC_PER_VERTEX;
     vl_step_rate := 1 |}.

Definition default_stencil_state : sg_stencil_state :=
  {| ss_fail_op := SG_STENCILOP_KEEP; ss_depth_fail_op := SG_STENCILOP_KEEP;
     ss_pass_op := SG_STENCILOP_KEEP; ss_compare_func := SG_COMPAREFUNC_ALWAYS |}.

Definition default_depth_stencil_state : sg_depth_stencil_state :=
  {| ds_stencil_front := default_stencil_state;
     ds_stencil_back := default_stencil_state;
     ds_depth_compare_func := SG_COMPAREFUNC_ALWAYS;
     ds_depth_write_enabled := false;
     ds_stencil_enabled := false;
     ds_stencil_read_mask := 255;
     ds_stencil_write_mask := 255;
     ds_stencil_ref := 0 |}.

Definition default_blend_state : sg_blend_state :=
  {| bs_enabled := false;
     bs_src_factor_rgb := SG_BLENDFACTOR_ONE;
     bs_dst_factor_rgb := SG_BLENDFACTOR_ZERO;
     bs_op_rgb := SG_BLENDOP_ADD;
     bs_src_factor_alpha := SG_BLENDFACTOR_ONE;
     bs_dst_factor_alpha := SG_BLENDFACTOR_ZERO;
     bs_op_alpha := SG_BLENDOP_ADD;
     bs_color_write_mask := 15;
     bs_blend_color := [f32_1_0; f32_1_0; f32_1_0; f32_1_0] |}.

Definition default_rasterizer_state : sg_rasterizer_state :=
  {| rs_cull_face_enabled := false;
     rs_scissor_test_enabled := false;
     rs_dither_enabled := true;
     rs_alpha_to_coverage_enabled := false;
     rs_cull_face := SG_FACE_BACK |}.

Definition default_pipeline_desc : sg_pipeline_desc :=
  {| pd_shader := SG_INVALID_ID;
     pd_layouts :=
       replicate (Z.to_nat SG_MAX_SHADERSTAGE_BUFFERS) default_vertex_layout;
     pd_depth_stencil := default_depth_stencil_state;
     pd_blend := default_blend_state;
     pd_rast := default_rasterizer_state |}.

(** The shape the C types give the nested arrays of a shader stage, of
    a whole shader descriptor and of a whole pipeline descriptor. *)
Definition shader_stage_desc_shaped (s : sg_shader_stage_desc) : Prop :=
  length (st_uniform_blocks s) = Z.to_nat SG_MAX_SHADERSTAGE_UBS ∧
  Forall (λ ub, length (ub_uniforms ub) = Z.to_nat SG_MAX_UNIFORMS)
         (st_uniform_blocks s) ∧
  length (st_images s) = Z.to_nat SG_MAX_SHADERSTAGE_IMAGES.

Definition shader_desc_storage (d : sg_shader_desc) : Prop :=
  shader_stage_desc_shaped (sd_vs d) ∧
  shader_stage_desc_shaped (sd_fs d) ∧
  shader_desc_shaped d.

Definition pipeline_desc_storage (d : sg_pipeline_desc) : Prop :=
  pipeline_desc_shaped d ∧ length (bs_blend_color (pd_blend d)) = 4%nat.

(** ** The effect of adding an attribute, as a function *)

Definition vertex_attr_ok (name : c_string) (format : sg_vertex_format) : Prop :=
  is_Some name ∧ format ≠ SG_VERTEXFORMAT_INVALID.

#[export] Instance vertex_attr_ok_dec name format : Decision (vertex_attr_ok name format).
Proof. unfold vertex_attr_ok. apply _. Defined.

(** The descriptor with [(name, format)] stored at the index the count
    gives and the count raised by one. *)
Definition shader_desc_push (d : sg_shader_desc) (name : c_string)
    (format : sg_vertex_format) : sg_shader_desc :=
  {| sd_vs := sd_vs d;
     sd_fs := sd_fs d;
     sd_num_attrs := sd_num_attrs d + 1;
     sd_attrs := <[Z.to_nat (sd_num_attrs d) :=
                     {| va_name := name; va_format := format |}]> (sd_attrs d) |}.

Definition vertex_layout_push (l : sg_vertex_layout) (name : c_string)
    (format : sg_vertex_format) : sg_vertex_layout :=
  {| vl_num_attrs := vl_num_attrs l + 1;
     vl_attrs := <[Z.to_nat (vl_num_attrs l) :=
                     {| va_name := name; va_format := format |}]> (vl_attrs l);
     vl_step_func := vl_step_func l;
     vl_step_rate := vl_step_rate l |}.

Definition pipeline_desc_push (d : sg_pipeline_desc) (slot : Z) (name : c_string)
    (format : sg_vertex_format) : sg_pipeline_desc :=
  {| pd_shader := pd_shader d;
     pd_layouts := alter (λ l, vertex_layout_push l name format)
                         (Z.to_nat slot) (pd_layouts d);
     pd_depth_stencil := pd_depth_stencil d;
     pd_blend := pd_blend d;
     pd_rast := pd_rast d |}.

(** ** The attribute arrays a caller builds

    The first [n] elements are attributes that were added, each with a
    name and a format; the elements from [n] on are as the init
    function left them. *)
Definition attrs_filled (n : Z) (attrs : list sg_vertex_attr) : Prop :=
  0 ≤ n ≤ Z.of_nat (length attrs) ∧
  ∀ (i : nat) (a : sg_vertex_attr), attrs !! i = Some a →
    if decide (Z.of_nat i < n)
    then vertex_attr_ok (va_name a) (va_format a)
    else a = default_vertex_attr.

Definition shader_desc_wf (d : sg_shader_desc) : Prop :=
  shader_desc_shaped d ∧ attrs_filled (sd_num_attrs d) (sd_attrs d).

Definition vertex_layout_wf (l : sg_vertex_layout) : Prop :=
  vertex_layout_shaped l ∧ attrs_filled (vl_num_attrs l) (vl_attrs l).

Definition pipeline_desc_wf (d : sg_pipeline_desc) : Prop :=
  length (pd_layouts d) = Z.to_nat SG_MAX_SHADERSTAGE_BUFFERS ∧
  Forall vertex_layout_wf (pd_layouts d).

(** The calls a caller makes to add the attributes of a list, one after
    the other. *)
Fixpoint each {S A} (l : list A) (body : A → prog S unit) : prog S unit :=
  match l with
  | [] => mret tt
  | x :: l' => body x ;; each l' body
  end.

Definition add_shader_attrs (l : list (c_string * sg_vertex_format))
    : prog sg_shader_desc unit :=
  each l (λ a, sg_shader_desc_attr (fst a) (snd a)).

Definition add_pipeline_attrs (slot : Z) (l : list (c_string * sg_vertex_format))
    : prog sg_pipeline_desc unit :=
  each l (λ a, sg_pipeline_desc_attr slot (fst a) (snd a)).

Definition vertex_attr_of (a : c_string * sg_vertex_format) : sg_vertex_attr :=
  {| va_name := fst a; va_format := snd a |}.

(** The array with the attributes of [l] stored from index [n] on, and
    the descriptors with the attributes of [l] added. *)
Definition attrs_with (n : Z) (attrs : list sg_vertex_attr)
    (l : list (c_string * sg_vertex_format)) : list sg_vertex_attr :=
  take (Z.to_nat n) attrs ++ (vertex_attr_of <$> l) ++
  drop (Z.to_nat n + length l) attrs.

Definition shader_desc_with (d : sg_shader_desc)
    (l : list (c_string * sg_vertex_format)) : sg_shader_desc :=
  {| sd_vs := sd_vs d;
     sd_fs := sd_fs d;
     sd_num_attrs := sd_num_attrs d + Z.of_nat (length l);
     sd_attrs := attrs_with (sd_num_attrs d) (sd_attrs d) l |}.

Definition vertex_layout_with (lay : sg_vertex_layout)
    (l : list (c_string * sg_vertex_format)) : sg_vertex_layout :=
  {| vl_num_attrs := vl_num_attrs lay + Z.of_nat (length l);
     vl_attrs := attrs_with (vl_num_attrs lay) (vl_attrs lay) l;
     vl_step_func := vl_step_func lay;
     vl_step_rate := vl_step_rate lay |}.

Definition pipeline_desc_with (d : sg_pipeline_desc) (slot : Z)
    (l : list (c_string * sg_vertex_format)) : sg_pipeline_desc :=
  {| pd_shader := pd_shader d;
     pd_layouts := alter (λ lay, vertex_layout_with lay l)
                         (Z.to_nat slot) (pd_layouts d);
     pd_depth_stencil := pd_depth_stencil d;
     pd_blend := pd_blend d;
     pd_rast := pd_rast d |}.

(** How many of the attributes of a list still fit behind a count. *)
Definition attrs_room (n : Z) : nat := Z.to_nat (SG_MAX_VERTEX_ATTRIBUTES - n).

(** ** Resource pools

    The header declares the resource functions ([sg_alloc_buffer],
    [sg_init_buffer], [sg_destroy_buffer], ... for the five resource
    types) and the slot states; their bodies are in
    [_sokol_gfx.impl.h], which the header only includes.  The pool below
    follows the specification of that part. *)

(** The ids are [uint32_t] values: they lie below this bound. *)
Definition SG_ID_LIMIT : Z := 2 ^ 32.

Definition example_gen_count : nat := Z.to_nat 65536.

Definition example_make_id (index gen : nat) : sg_id :=
  Z.of_nat gen * 65536 + (Z.of_nat index + 1).

(** Modelled from the spec: the inverse of the example packing; 0, any
    id with empty low 16 bits and anything that is not a 32-bit value
    has no parts. *)
Definition example_id_parts (h : sg_id) : option (nat * nat) :=
  if (0 <? h) && (h <? SG_ID_LIMIT) && negb (h mod 65536 =? 0)
  then Some (Z.to_nat (h mod 65536 - 1), Z.to_nat (h / 65536))
  else None.

Section ResourcePool.

(** What a valid slot holds for its resource type. *)
Context {payload : Type}.

(** An id is a 32-bit value composed of a slot index and a generation,
    with room for [index_count] slot indices and [gen_count]
    generations; the id 0 is composed of nothing.  A generation field
    has at least two values. *)
Variable make_id : nat → nat → sg_id.
Variable id_parts : sg_id → option (nat * nat).
Variable index_count : nat.
Variable gen_count : nat.
Hypothesis id_parts_make_id :
  ∀ i g, (i < index_count)%nat → (g < gen_count)%nat →
    id_parts (make_id i g) = Some (i, g).
Hypothesis id_parts_invalid : id_parts SG_INVALID_ID = None.
Hypothesis make_id_32bit :
  ∀ i g, (i < index_count)%nat → (g < gen_count)%nat →
    0 < make_id i g < SG_ID_LIMIT.
Hypothesis gen_count_min : (2 ≤ gen_count)%nat.

(** Modelled from the spec: a slot of [_sokol_gfx.impl.h]'s pools has
    a state tag, a generation counter and a payload that is present
    only in the valid state.  The generation is the one that goes into
    the 32-bit id, so the counter runs over the [gen_count] values of
    that field: [release] wraps it. *)
Record slot : Type := {
  slot_state : sg_resource_state;
  slot_gen : nat;
  slot_payload : option payload
}.

(** Modelled from the spec: a pool of [_sokol_gfx.impl.h] is a fixed
    array of slots and a free-list of unoccupied slot indices. *)
Record pool : Type := {
  pool_slots : list slot;
  pool_free : list nat
}.

(** Modelled from the spec: the pool that setup builds for a capacity,
    every slot initial with generation 0 and every index free. *)
Definition pool_setup (capacity : nat) : pool :=
  {| pool_slots := replicate capacity
       {| slot_state := SG_RESOURCESTATE_INITIAL; slot_gen := 0; slot_payload := None |};
     pool_free := seq 0 capacity |}.

(** Modelled from the spec: [allocate()] of the handle allocator "pops
    a free slot index (or fails if none remain), marks the slot
    allocated, returns a handle = (index, current generation)";
    exhaustion "yields the invalid sentinel handle (0)". *)
Definition allocate (p : pool) : sg_id * pool :=
  match pool_free p with
  | [] => (SG_INVALID_ID, p)
  | i :: rest =>
      match pool_slots p !! i with
      | Some s =>
          (make_id i (slot_gen s),
           {| pool_slots :=
                <[i := {| slot_state := SG_RESOURCESTATE_ALLOC;
                          slot_gen := slot_gen s;
                          slot_payload := None |}]> (pool_slots p);
              pool_free := rest |})
      | None => (SG_INVALID_ID, p)
      end
  end.

(** Modelled from the spec: "a handle is valid iff its slot index is
    in range, the slot is occupied (state ≠ initial), and the handle's
    embedded generation equals the slot's current generation"; the
    result is the slot the handle stands for. *)
Definition resolve (p : pool) (h : sg_id) : option (nat * slot) :=
  match id_parts h with
  | Some (i, g) =>
      match pool_slots p !! i with
      | Some s =>
          if bool_decide (slot_state s ≠ SG_RESOURCESTATE_INITIAL)
             && bool_decide (slot_gen s = g)
          then Some (i, s) else None
      | None => None
      end
  | None => None
  end.

(** Modelled from the spec: validity of a handle, as a test. *)
Definition handle_valid (p : pool) (h : sg_id) : bool :=
  bool_decide (is_Some (resolve p h)).


(** Modelled from the spec: [release(handle)] of the handle allocator
    is a "no-op if already invalid or slot already initial; otherwise
    transitions slot to initial, increments its generation, and
    pushes the index back onto the free-list".  The increment is the
    one of a field of [gen_count] values: after the last value comes
    the first. *)
Definition release (p : pool) (h : sg_id) : pool :=
  match resolve p h with
  | Some (i, s) =>
      {| pool_slots :=
           <[i := {| slot_state := SG_RESOURCESTATE_INITIAL;
                     slot_gen := (S (slot_gen s) mod gen_count)%nat;
                     slot_payload := slot_payload s |}]> (pool_slots p);
         pool_free := i :: pool_free p |}
  | None => p
  end.

(** Modelled from the spec: the part of [destroy] that "releases the
    backend-held native object": the slot gives up its payload. *)
Definition drop_payload (p : pool) (h : sg_id) : pool :=
  match resolve p h with
  | Some (i, s) =>
      {| pool_slots :=
           <[i := {| slot_state := slot_state s;
                     slot_gen := slot_gen s;
                     slot_payload := None |}]> (pool_slots p);
         pool_free := pool_free p |}
  | None => p
  end.

(** Modelled from the spec: [destroy(handle)] is a "no-op for an
    invalid or already-initial handle; otherwise releases the
    backend-held native object and runs release". *)
Definition destroy (p : pool) (h : sg_id) : pool :=
  release (drop_payload p h) h.

(** Modelled from the spec: [init(handle, descriptor)] finishes an
    allocated slot: "on acceptance ... stores the resulting payload,
    setting the slot valid; on rejection or backend failure, sets the
    slot failed and stores no payload".  The validation and the
    backend are outside the pool; [r] is what they produced.  In the
    state machine init leaves only the allocated state, so on any
    other slot it does nothing. *)
Definition init (p : pool) (h : sg_id) (r : option payload) : pool :=
  match resolve p h with
  | Some (i, s) =>
      if bool_decide (slot_state s = SG_RESOURCESTATE_ALLOC) then
        {| pool_slots :=
             <[i := match r with
                    | Some x => {| slot_state := SG_RESOURCESTATE_VALID;
                                   slot_gen := slot_gen s;
                                   slot_payload := Some x |}
                    | None => {| slot_state := SG_RESOURCESTATE_FAILED;
                                 slot_gen := slot_gen s;
                                 slot_payload := None |}
                    end]> (pool_slots p);
           pool_free := pool_free p |}
      else p
  | None => p
  end.

(** Modelled from the spec: [create(descriptor)] "performs allocate()
    then init() as one logical step; always returns a handle". *)
Definition create (p : pool) (r : option payload) : sg_id * pool :=
  let '(h, p') := allocate p in (h, init p' h r).

(** Modelled from the spec: the operations a caller can issue on one
    pool, [sg_alloc_*], [sg_init_*] and [sg_destroy_*]. *)
Inductive pool_op : Type :=
| OP_ALLOC
| OP_INIT (h : sg_id) (r : option payload)
| OP_DESTROY (h : sg_id).

(** Modelled from the spec: the effect of one operation on the pool. *)
Definition step (p : pool) (o : pool_op) : pool :=
  match o with
  | OP_ALLOC => snd (allocate p)
  | OP_INIT h r => init p h r
  | OP_DESTROY h => destroy p h
  end.

(** Modelled from the spec: a sequence of operations, first to last. *)
Definition run (ops : list pool_op) (p : pool) : pool := foldl step p ops.


(** Modelled from the spec: the pools a caller can reach from setup. *)
Definition reachable (p : pool) : Prop :=
  ∃ capacity ops, p = run ops (pool_setup capacity).


Definition slot_state_at (p : pool) (i : nat) : option sg_resource_state :=
  slot_state <$> pool_slots p !! i.



(** Modelled from the spec: the edges of the resource state machine,
    "initial → allocated → {valid, failed} → (destroy) → initial",
    each with the operation that triggers it. *)
Inductive lifecycle_edge : pool_op → sg_resource_state → sg_resource_state → Prop :=
| edge_allocate :
    lifecycle_edge OP_ALLOC SG_RESOURCESTATE_INITIAL SG_RESOURCESTATE_ALLOC
| edge_init_valid h x :
    lifecycle_edge (OP_INIT h (Some x)) SG_RESOURCESTATE_ALLOC SG_RESOURCESTATE_VALID
| edge_init_failed h :
    lifecycle_edge (OP_INIT h None) SG_RESOURCESTATE_ALLOC SG_RESOURCESTATE_FAILED
| edge_destroy h st :
    st ≠ SG_RESOURCESTATE_INITIAL →
    lifecycle_edge (OP_DESTROY h) st SG_RESOURCESTATE_INITIAL.

(** Free indices are distinct and name initial slots. *)
Definition pool_inv (p : pool) : Prop :=
  NoDup (pool_free p) ∧
  ∀ i, i ∈ pool_free p →
    ∃ s, pool_slots p !! i = Some s ∧ slot_state s = SG_RESOURCESTATE_INITIAL.




(** ** Properties of the resource pools *)

(** *** What resolving a handle tells *)

Lemma resolve_Some (p : pool) (h : sg_id) (i : nat) (s : slot) :
  resolve p h = Some (i, s) ↔
  id_parts h = Some (i, slot_gen s) ∧ pool_slots p !! i = Some s ∧
  slot_state s ≠ SG_RESOURCESTATE_INITIAL.
Proof.
  unfold resolve. split.
  - destruct (id_parts h) as [[j g]|]; [|discriminate].
    destruct (pool_slots p !! j) as [s0|] eqn:Hj; [|discriminate].
    destruct (bool_decide _ && bool_decide _) eqn:Hc; [|discriminate].
    intros [= -> ->].
    apply andb_true_iff in Hc as [H1 H2].
    apply bool_decide_eq_true in H1. apply bool_decide_eq_true in H2.
    subst g. auto.
  - intros (-> & -> & Hst).
    rewrite (bool_decide_eq_true_2 _ Hst).
    rewrite bool_decide_eq_true_2 by reflexivity. reflexivity.
Qed.


Lemma handle_valid_false (p : pool) (h : sg_id) :
  handle_valid p h = false ↔ resolve p h = None.
Proof.
  unfold handle_valid. rewrite bool_decide_eq_false. split.
  - intros H. destruct (resolve p h) eqn:E; [|reflexivity].
    exfalso. apply H. eauto.
  - intros -> [x Hx]. discriminate.
Qed.





(** *** The three operations, slot by slot *)

Lemma destroy_valid (p : pool) (h : sg_id) (i : nat) (s : slot) :
  resolve p h = Some (i, s) →
  destroy p h =
    {| pool_slots :=
         <[i := {| slot_state := SG_RESOURCESTATE_INITIAL;
                   slot_gen := (S (slot_gen s) mod gen_count)%nat;
                   slot_payload := None |}]> (pool_slots p);
       pool_free := i :: pool_free p |}.
Proof.
  intros Hr. pose proof Hr as (Hh & Hs & Hst)%resolve_Some.
  unfold destroy, drop_payload. rewrite Hr.
  unfold release.
  set (s1 := {| slot_state := slot_state s; slot_gen := slot_gen s;
                slot_payload := None |}).
  assert (Hr1 : resolve {| pool_slots := <[i := s1]> (pool_slots p);
                           pool_free := pool_free p |} h = Some (i, s1)).
  { apply resolve_Some. simpl. split; [exact Hh|]. split; [|exact Hst].
    apply list_lookup_insert_eq. eapply lookup_lt_Some. exact Hs. }
  rewrite Hr1. simpl. rewrite list_insert_insert_eq. reflexivity.
Qed.

Lemma destroy_invalid (p : pool) (h : sg_id) :
  resolve p h = None → destroy p h = p.
Proof.
  intros Hr. unfold destroy, drop_payload. rewrite Hr.
  unfold release. rewrite Hr. reflexivity.
Qed.



Lemma run_app (ops1 ops2 : list pool_op) (p : pool) :
  run (ops1 ++ ops2) p = run ops2 (run ops1 p).
Proof. unfold run. apply foldl_app. Qed.


Lemma step_slots_length (p : pool) (o : pool_op) :
  length (pool_slots (step p o)) = length (pool_slots p).
Proof.
  destruct o as [|h r|h]; simpl.
  - unfold allocate. destruct (pool_free p) as [|i rest]; [reflexivity|].
    destruct (pool_slots p !! i); [|reflexivity]. simpl. apply length_insert.
  - unfold init. destruct (resolve p h) as [[i s]|]; [|reflexivity].
    destruct (bool_decide _); [|reflexivity]. simpl. apply length_insert.
  - destruct (resolve p h) as [[i s]|] eqn:Hr.
    + rewrite (destroy_valid p h i s Hr). simpl. apply length_insert.
    + rewrite (destroy_invalid p h Hr). reflexivity.
Qed.


(** *** Pools that the ids can address *)







(** *** Recycling one slot *)





(** *** The free-list *)

Lemma pool_inv_setup (capacity : nat) : pool_inv (pool_setup capacity).
Proof.
  split; simpl.
  - apply NoDup_seq.
  - intros i Hi. apply elem_of_seq in Hi.
    eexists. split; [apply lookup_replicate_2; clear - Hi; lia|reflexivity].
Qed.

Lemma pool_inv_step (p : pool) (o : pool_op) : pool_inv p → pool_inv (step p o).
Proof.
  destruct p as [sl fr]. intros [Hnd Hfree]. simpl in *.
  destruct o as [|h r|h]; simpl.
  - unfold allocate. simpl.
    destruct fr as [|i rest]; [split; assumption|].
    destruct (sl !! i) as [s|] eqn:Hs; [|split; assumption].
    apply NoDup_cons in Hnd as [Hi Hnd]. simpl. split; [exact Hnd|].
    intros j Hj. simpl.
    rewrite list_lookup_insert_ne by (intros ->; contradiction).
    apply Hfree. right. exact Hj.
  - unfold init.
    destruct (resolve _ h) as [[i s]|] eqn:Hr; [|split; assumption].
    apply resolve_Some in Hr as (_ & Hs & _). simpl in Hs.
    destruct (bool_decide (slot_state s = SG_RESOURCESTATE_ALLOC)) eqn:Hst;
      [|split; assumption].
    apply bool_decide_eq_true in Hst.
    split; simpl; [exact Hnd|].
    intros j Hj. rewrite list_lookup_insert_ne; [apply Hfree; exact Hj|].
    intros ->. destruct (Hfree j Hj) as (s0 & Hs0 & Hst0). congruence.
  - destruct (resolve {| pool_slots := sl; pool_free := fr |} h)
      as [[i s]|] eqn:Hr.
    + rewrite (destroy_valid _ h i s Hr).
      apply resolve_Some in Hr as (_ & Hs & Hst). simpl in Hs.
      assert (Hi : i ∉ fr).
      { intros Hi. destruct (Hfree i Hi) as (s0 & Hs0 & Hst0). congruence. }
      split; simpl.
      * apply NoDup_cons. split; assumption.
      * intros j Hj. apply elem_of_cons in Hj as [->|Hj].
        -- eexists.
           split; [apply list_lookup_insert_eq; eapply lookup_lt_Some; exact Hs|].
           reflexivity.
        -- rewrite list_lookup_insert_ne by (intros ->; contradiction).
           apply Hfree. exact Hj.
    + rewrite (destroy_invalid _ h Hr). split; assumption.
Qed.

Lemma pool_inv_reachable (p : pool) : reachable p → pool_inv p.
Proof.
  intros (capacity & ops & ->).
  induction ops as [|o ops IH] using rev_ind.
  - apply pool_inv_setup.
  - rewrite run_app. apply (pool_inv_step _ o). exact IH.
Qed.

(** *** The state machine *)

(** One operation moves one slot along an edge of the state machine or
    leaves its state alone. *)
Lemma step_slot_state (p : pool) (o : pool_op) (i : nat) (st st' : sg_resource_state) :
  pool_inv p →
  slot_state_at p i = Some st →
  slot_state_at (step p o) i = Some st' →
  st' = st ∨ lifecycle_edge o st st'.
Proof.
  destruct p as [sl fr]. intros [Hnd Hfree]. unfold slot_state_at. simpl in *.
  destruct (sl !! i) as [si|] eqn:Hi; [|discriminate]. simpl. intros [= <-].
  destruct o as [|h r|h]; simpl.
  - unfold allocate. simpl.
    destruct fr as [|k rest]; [simpl; rewrite Hi; simpl; intros [= <-]; auto|].
    destruct (sl !! k) as [s|] eqn:Hs;
      [|simpl; rewrite Hi; simpl; intros [= <-]; auto].
    simpl. destruct (decide (k = i)) as [->|Hne].
    + rewrite list_lookup_insert_eq by (eapply lookup_lt_Some; exact Hi).
      simpl. intros [= <-]. right.
      destruct (Hfree i) as (s0 & Hs0 & Hst0); [left|].
      rewrite Hi in Hs0. injection Hs0 as <-. rewrite Hst0. constructor.
    + rewrite list_lookup_insert_ne by exact Hne. rewrite Hi. simpl.
      intros [= <-]; auto.
  - unfold init.
    destruct (resolve _ h) as [[k s]|] eqn:Hr;
      [|simpl; rewrite Hi; simpl; intros [= <-]; auto].
    apply resolve_Some in Hr as (_ & Hs & _). simpl in Hs.
    destruct (bool_decide (slot_state s = SG_RESOURCESTATE_ALLOC)) eqn:Hst;
      [|simpl; rewrite Hi; simpl; intros [= <-]; auto].
    apply bool_decide_eq_true in Hst. simpl.
    destruct (decide (k = i)) as [->|Hne].
    + rewrite list_lookup_insert_eq by (eapply lookup_lt_Some; exact Hi).
      rewrite Hi in Hs. injection Hs as <-. rewrite Hst.
      destruct r; simpl; intros [= <-]; right; constructor.
    + rewrite list_lookup_insert_ne by exact Hne. rewrite Hi. simpl.
      intros [= <-]; auto.
  - destruct (resolve {| pool_slots := sl; pool_free := fr |} h)
      as [[k s]|] eqn:Hr.
    + rewrite (destroy_valid _ h k s Hr).
      apply resolve_Some in Hr as (_ & Hs & Hst). simpl in Hs. simpl.
      destruct (decide (k = i)) as [->|Hne].
      * rewrite list_lookup_insert_eq by (eapply lookup_lt_Some; exact Hi).
        rewrite Hi in Hs. injection Hs as <-.
        simpl. intros [= <-]. right. constructor. exact Hst.
      * rewrite list_lookup_insert_ne by exact Hne. rewrite Hi. simpl.
        intros [= <-]; auto.
    + rewrite (destroy_invalid _ h Hr). simpl. rewrite Hi. simpl.
      intros [= <-]; auto.
Qed.

Lemma reachable_step (p : pool) (o : pool_op) : reachable p → reachable (step p o).
Proof.
  intros (capacity & ops & ->). exists capacity, (ops ++ [o]).
  rewrite run_app. reflexivity.
Qed.

(** Along a run from setup, a slot that is valid or failed at the end
    was allocated at some earlier point of the run. *)
Lemma run_passes_through_alloc (capacity : nat) (ops : list pool_op) (i : nat) :
  slot_state_at (run ops (pool_setup capacity)) i = Some SG_RESOURCESTATE_VALID ∨
  slot_state_at (run ops (pool_setup capacity)) i = Some SG_RESOURCESTATE_FAILED →
  ∃ ops1 ops2,
    ops = ops1 ++ ops2 ∧
    slot_state_at (run ops1 (pool_setup capacity)) i = Some SG_RESOURCESTATE_ALLOC.
Proof.
  induction ops as [|o ops IH] using rev_ind; intros Hend.
  - exfalso. unfold run, slot_state_at in Hend. simpl in Hend.
    destruct (replicate capacity _ !! i) as [s|] eqn:Hs; simpl in Hend.
    + apply lookup_replicate_1 in Hs as [-> _]. simpl in Hend.
      destruct Hend; discriminate.
    + destruct Hend; discriminate.
  - rewrite run_app in Hend.
    change (run [o] (run ops (pool_setup capacity)))
      with (step (run ops (pool_setup capacity)) o) in Hend.
    set (p := run ops (pool_setup capacity)) in *.
    assert (Hreach : reachable p) by (exists capacity, ops; reflexivity).
    assert (∃ st', slot_state_at (step p o) i = Some st' ∧
                   (st' = SG_RESOURCESTATE_VALID ∨ st' = SG_RESOURCESTATE_FAILED))
      as (st' & Hst' & Hvf) by (destruct Hend; eauto).
    assert (∃ st, slot_state_at p i = Some st) as [st Hst].
    { unfold slot_state_at in *.
      destruct (pool_slots (step p o) !! i) as [s'|] eqn:Hs'; [|discriminate].
      apply lookup_lt_Some in Hs'. rewrite step_slots_length in Hs'.
      apply lookup_lt_is_Some in Hs' as [s Hs]. rewrite Hs. eauto. }
    destruct (step_slot_state p o i st st' (pool_inv_reachable p Hreach) Hst Hst')
      as [->|Hedge].
    + destruct IH as (ops1 & ops2 & -> & H1).
      { destruct Hvf as [->| ->]; auto. }
      exists ops1, (ops2 ++ [o]). split; [symmetry; apply app_assoc|exact H1].
    + exists ops, [o]. split; [reflexivity|].
      fold p. rewrite Hst. f_equal.
      inversion Hedge; subst; try reflexivity; destruct Hvf; discriminate.
Qed.

(** [create] is an allocation followed by the init of the handle it got. *)
Lemma create_two_steps (p : pool) (r : option payload) :
  create p r =
  (fst (allocate p), run [OP_ALLOC; OP_INIT (fst (allocate p)) r] p).
Proof. unfold create, run. simpl. destruct (allocate p). reflexivity. Qed.

(** C8: in a pool reached from setup, one operation changes the state
    of a slot only along initial → allocated (by an allocation),
    allocated → valid or failed (by an init) and allocated, valid or
    failed → initial (by a destroy).  So a slot that is initial is
    initial or allocated afterwards, a slot that has become valid or
    failed was allocated before, a slot that has become initial was
    taken there by a destroy of a valid handle, and a destroy of a
    valid handle finds its slot allocated, valid or failed and leaves
    it initial.  The pool after the operation is again reached from
    setup, and along every run from setup a slot that ends valid or
    failed was allocated at an earlier point of that run. *)
Theorem slot_lifecycle (p : pool) (o : pool_op) (i : nat) (st st' : sg_resource_state) :
  reachable p →
  slot_state_at p i = Some st →
  slot_state_at (step p o) i = Some st' →
  (st' = st ∨ lifecycle_edge o st st') ∧
  (st = SG_RESOURCESTATE_INITIAL →
     st' = SG_RESOURCESTATE_INITIAL ∨ st' = SG_RESOURCESTATE_ALLOC) ∧
  (st' = SG_RESOURCESTATE_VALID ∨ st' = SG_RESOURCESTATE_FAILED →
     st' = st ∨ st = SG_RESOURCESTATE_ALLOC) ∧
  (st' = SG_RESOURCESTATE_INITIAL → st ≠ SG_RESOURCESTATE_INITIAL →
     ∃ h, o = OP_DESTROY h ∧ handle_valid p h = true) ∧
  (∀ h k s, resolve p h = Some (k, s) →
     (slot_state s = SG_RESOURCESTATE_ALLOC ∨
      slot_state s = SG_RESOURCESTATE_VALID ∨
      slot_state s = SG_RESOURCESTATE_FAILED) ∧
     slot_state_at (destroy p h) k = Some SG_RESOURCESTATE_INITIAL) ∧
  reachable (step p o) ∧
  (∀ capacity ops k,
     slot_state_at (run ops (pool_setup capacity)) k = Some SG_RESOURCESTATE_VALID ∨
     slot_state_at (run ops (pool_setup capacity)) k = Some SG_RESOURCESTATE_FAILED →
     ∃ ops1 ops2,
       ops = ops1 ++ ops2 ∧
       slot_state_at (run ops1 (pool_setup capacity)) k = Some SG_RESOURCESTATE_ALLOC).
Proof.
  intros Hreach Hst Hst'.
  pose proof (step_slot_state p o i st st' (pool_inv_reachable p Hreach) Hst Hst')
    as Hedge.
  split; [exact Hedge|].
  split.
  { intros ->. destruct Hedge as [E|Hedge]; [auto|].
    inversion Hedge; subst; auto; congruence. }
  split.
  { intros Hvf. destruct Hedge as [E|Hedge]; [auto|].
    inversion Hedge; subst; auto; destruct Hvf; discriminate. }
  split.
  { intros -> Hne. destruct Hedge as [E|Hedge]; [congruence|].
    inversion Hedge; subst; try congruence.
    eexists. split; [reflexivity|].
    destruct (handle_valid p h) eqn:Hv; [reflexivity|].
    apply handle_valid_false in Hv.
    cbn [step] in Hst'. rewrite (destroy_invalid p h Hv) in Hst'. congruence. }
  split.
  { intros h k s Hr. split.
    - apply resolve_Some in Hr as (_ & _ & Hne).
      destruct (slot_state s); auto; congruence.
    - rewrite (destroy_valid p h k s Hr). unfold slot_state_at. simpl.
      apply resolve_Some in Hr as (_ & Hs & _).
      rewrite list_lookup_insert_eq by (eapply lookup_lt_Some; exact Hs).
      reflexivity. }
  split; [apply reachable_step; exact Hreach|].
  apply run_passes_through_alloc.
Qed.

(** *** Exhaustion and reuse *)









End ResourcePool.
(** * Properties of the descriptors and the pass action *)

(** Turn a list of known length into its elements. *)
Ltac list_of_length :=
  repeat match goal with
  | H : length ?l = _ |- _ =>
      destruct l; simpl in H; [try discriminate H | try discriminate H; try injection H as H]
  | H : Forall _ (_ :: _) |- _ => apply Forall_cons in H; destruct H
  end.

Lemma f32_0_5_bits : f32_0_5 = S754_finite false 8388608 (-24).
Proof. reflexivity. Qed.

Lemma f32_1_0_bits : f32_1_0 = S754_finite false 8388608 (-23).
Proof. reflexivity. Qed.

(** Two halves make the one: [0.5f + 0.5f = 1.0f] in binary32. *)
Lemma f32_0_5_twice : SFadd f32_prec f32_emax f32_0_5 f32_0_5 = f32_1_0.
Proof. reflexivity. Qed.

(** C2: whatever a pass action of the declared shape holds before,
    [sg_init_pass_action] returns and leaves all four color slots at
    (0.5, 0.5, 0.5, 1.0), depth at 1.0, stencil at 0 and the action mask
    at [SG_PASSACTION_CLEAR_ALL], in which every attachment has its clear
    bit and none has its load bit. *)
Theorem sg_init_pass_action_defaults (pa : sg_pass_action) :
  pass_action_shaped pa →
  ∃ pa', sg_init_pass_action pa = Done tt pa' ∧
    pa_color pa' = replicate 4 [f32_0_5; f32_0_5; f32_0_5; f32_1_0] ∧
    (∀ att c : nat, (att < 4)%nat → (c < 3)%nat →
       pa_color pa' !! att ≫= (.!! c) = Some f32_0_5) ∧
    (∀ att : nat, (att < 4)%nat → pa_color pa' !! att ≫= (.!! 3%nat) = Some f32_1_0) ∧
    pa_depth pa' = f32_1_0 ∧
    pa_stencil pa' = 0 ∧
    pa_actions pa' = SG_PASSACTION_CLEAR_ALL ∧
    (∀ a, has_bits (pa_actions pa') (clear_bit a) = true ∧
          has_bits (pa_actions pa') (load_bit a) = false).
Proof.
  destruct pa as [color depth stencil actions].
  unfold pass_action_shaped; simpl. intros [Hlen Hrows].
  change (Z.to_nat SG_MAX_COLOR_ATTACHMENTS) with 4%nat in Hlen.
  list_of_length. list_of_length.
  eexists. split; [vm_compute; reflexivity|].
  split; [vm_compute; reflexivity|].
  split.
  { intros att c Ha Hc.
    destruct att as [|[|[|[|]]]]; try lia;
      destruct c as [|[|[|]]]; try lia; vm_compute; reflexivity. }
  split.
  { intros att Ha.
    destruct att as [|[|[|[|]]]]; try lia; vm_compute; reflexivity. }
  do 3 (split; [vm_compute; reflexivity|]).
  intros a; destruct a; split; vm_compute; reflexivity.
Qed.

Lemma sg_init_pass_action_defaults_witness :
  ∃ pa', sg_init_pass_action raw_pass_action = Done tt pa' ∧
    pa_color pa' = replicate 4 [f32_0_5; f32_0_5; f32_0_5; f32_1_0] ∧
    (∀ att c : nat, (att < 4)%nat → (c < 3)%nat →
       pa_color pa' !! att ≫= (.!! c) = Some f32_0_5) ∧
    (∀ att : nat, (att < 4)%nat → pa_color pa' !! att ≫= (.!! 3%nat) = Some f32_1_0) ∧
    pa_depth pa' = f32_1_0 ∧
    pa_stencil pa' = 0 ∧
    pa_actions pa' = SG_PASSACTION_CLEAR_ALL ∧
    (∀ a, has_bits (pa_actions pa') (clear_bit a) = true ∧
          has_bits (pa_actions pa') (load_bit a) = false).
Proof.
  apply (sg_init_pass_action_defaults raw_pass_action).
  split; [vm_compute; reflexivity|].
  vm_compute. repeat (apply Forall_cons; split; [reflexivity|]). apply Forall_nil_2.
Defined.

(** C3: whatever a setup descriptor of the declared shape holds before,
    [sg_init_desc] returns and leaves width 640, height 400, sample
    count 1 and a pool size of 128 for each of the five resource types. *)
Theorem sg_init_desc_defaults (d : sg_desc) :
  desc_shaped d →
  ∃ d', sg_init_desc d = Done tt d' ∧
    d_width d' = 640 ∧
    d_height d' = 400 ∧
    d_sample_count d' = 1 ∧
    length (d_resource_pool_size d') = 5%nat ∧
    ∀ t : sg_resource_type,
      d_resource_pool_size d' !! Z.to_nat (resource_type_index t) = Some 128.
Proof.
  destruct d as [w h sc sizes]. unfold desc_shaped; simpl. intros Hlen.
  change (Z.to_nat SG_NUM_RESOURCETYPES) with 5%nat in Hlen.
  list_of_length.
  eexists. split; [vm_compute; reflexivity|].
  do 4 (split; [vm_compute; reflexivity|]).
  intros []; vm_compute; reflexivity.
Qed.

Lemma sg_init_desc_defaults_witness :
  ∃ d', sg_init_desc raw_desc = Done tt d' ∧
    d_width d' = 640 ∧
    d_height d' = 400 ∧
    d_sample_count d' = 1 ∧
    length (d_resource_pool_size d') = 5%nat ∧
    ∀ t : sg_resource_type,
      d_resource_pool_size d' !! Z.to_nat (resource_type_index t) = Some 128.
Proof. apply (sg_init_desc_defaults raw_desc). vm_compute. reflexivity. Defined.

(** C4: the invalid-id sentinel and the default-pass sentinel are the
    same id, and that id is 0. *)
Theorem sentinel_ids_coincide :
  SG_INVALID_ID = 0 ∧ SG_DEFAULT_PASS = 0 ∧ SG_DEFAULT_PASS = SG_INVALID_ID.
Proof. repeat split. Qed.

(** C9: whatever a buffer descriptor holds before, [sg_init_buffer_desc]
    returns and leaves size 0, type vertex buffer, usage immutable, a
    null data pointer and data size 0; that usage does not permit
    updates after creation. *)
Theorem sg_init_buffer_desc_defaults (d : sg_buffer_desc) :
  ∃ d', sg_init_buffer_desc d = Done tt d' ∧
    bd_size d' = 0 ∧
    bd_type d' = SG_BUFFERTYPE_VERTEX_BUFFER ∧
    bd_usage d' = SG_USAGE_IMMUTABLE ∧
    bd_data_ptr d' = None ∧
    bd_data_size d' = 0 ∧
    usage_permits_update (bd_usage d') = false.
Proof.
  eexists. split; [vm_compute; reflexivity|].
  repeat (split; [reflexivity|]). reflexivity.
Qed.

(** ** The pass action bits *)

Lemma has_bits_lor (m1 m2 b : Z) :
  has_bits (Z.lor m1 m2) b = has_bits m1 b || has_bits m2 b.
Proof.
  unfold has_bits. rewrite Z.land_lor_distr_l.
  destruct (Z.eqb_spec (Z.land m1 b) 0) as [E1|E1];
    destruct (Z.eqb_spec (Z.land m2 b) 0) as [E2|E2]; simpl;
    destruct (Z.eqb_spec (Z.lor (Z.land m1 b) (Z.land m2 b)) 0) as [E|E];
    try reflexivity; exfalso.
  - apply E. apply Z.lor_eq_0_iff. auto.
  - apply Z.lor_eq_0_iff in E. tauto.
  - apply Z.lor_eq_0_iff in E. tauto.
  - apply Z.lor_eq_0_iff in E. tauto.
Qed.

Lemma has_clear_bit_bits_of (a b : attachment) (x : att_action) :
  has_bits (bits_of b x) (clear_bit a) =
  bool_decide (a = b) &&
  match x with ACT_CLEAR | ACT_CLEAR_AND_LOAD => true | _ => false end.
Proof. destruct a, b, x; reflexivity. Qed.

Lemma has_load_bit_bits_of (a b : attachment) (x : att_action) :
  has_bits (bits_of b x) (load_bit a) =
  bool_decide (a = b) &&
  match x with ACT_LOAD | ACT_CLEAR_AND_LOAD => true | _ => false end.
Proof. destruct a, b, x; reflexivity. Qed.

(** A mask built from a choice of actions says of every attachment what
    was chosen for it. *)
Lemma action_of_mask_of (f : attachment → att_action) (a : attachment) :
  action_of (mask_of f) a = f a.
Proof.
  unfold action_of, mask_of, all_attachments. cbn [foldr].
  rewrite !has_bits_lor, !has_clear_bit_bits_of, !has_load_bit_bits_of.
  change (has_bits 0 (clear_bit a)) with false.
  change (has_bits 0 (load_bit a)) with false.
  destruct a; cbn [bool_decide decide_rel attachment_eq_dec andb orb];
    vm_compute bool_decide; cbn [andb orb];
    destruct (f _); reflexivity.
Qed.

(** C5: the twelve bits of the enumeration are twelve different single
    bits, the clear bit of an attachment at position [k] and its load
    bit at [k + 6]; the clear-all and the load-all masks share no bit
    and are the unions of the six clear and the six load bits; and for
    every choice of an action per attachment (clear, load, both or
    neither) there is a mask that says exactly that of each attachment,
    so one attachment can be left without a bit whatever the others
    have. *)
Theorem pass_action_bits_independent :
  (∀ a b, clear_bit a ≠ load_bit b) ∧
  (∀ a b, clear_bit a = clear_bit b → a = b) ∧
  (∀ a b, load_bit a = load_bit b → a = b) ∧
  (∀ a, ∃ k, 0 ≤ k < 6 ∧ clear_bit a = Z.shiftl 1 k ∧ load_bit a = Z.shiftl 1 (k + 6)) ∧
  Z.land SG_PASSACTION_CLEAR_ALL SG_PASSACTION_LOAD_ALL = 0 ∧
  SG_PASSACTION_CLEAR_ALL = foldr (λ a m, Z.lor (clear_bit a) m) 0 all_attachments ∧
  SG_PASSACTION_LOAD_ALL = foldr (λ a m, Z.lor (load_bit a) m) 0 all_attachments ∧
  (∀ (f : attachment → att_action) a, action_of (mask_of f) a = f a) ∧
  (∀ (f : attachment → att_action) a,
     action_of (mask_of (λ b, if decide (b = a) then ACT_DONT_CARE else f b)) a
       = ACT_DONT_CARE ∧
     ∀ b, b ≠ a →
       action_of (mask_of (λ b, if decide (b = a) then ACT_DONT_CARE else f b)) b = f b).
Proof.
  split; [intros [] []; discriminate|].
  split; [intros [] []; (reflexivity || discriminate)|].
  split; [intros [] []; (reflexivity || discriminate)|].
  split.
  { intros a.
    exists (match a with
            | ATT_COLOR0 => 0 | ATT_COLOR1 => 1 | ATT_COLOR2 => 2
            | ATT_COLOR3 => 3 | ATT_DEPTH => 4 | ATT_STENCIL => 5
            end).
    destruct a; (split; [lia|split; reflexivity]). }
  do 3 (split; [reflexivity|]).
  split; [apply action_of_mask_of|].
  intros f a. split.
  - rewrite action_of_mask_of. destruct (decide (a = a)); congruence.
  - intros b Hb. rewrite action_of_mask_of. destruct (decide (b = a)); congruence.
Qed.

(** ** Adding vertex attributes *)

Lemma in_bounds_lookup {T} (a : list T) (i : Z) (t : T) :
  0 ≤ i → a !! Z.to_nat i = Some t → in_bounds a i = true.
Proof.
  intros Hi Hl. apply lookup_lt_Some in Hl. unfold in_bounds.
  apply andb_true_intro. split; [apply Z.leb_le|apply Z.ltb_lt]; lia.
Qed.

Lemma at_index_Done {T A} (i : Z) (m : prog T A) (a : list T) (t t' : T) (r : A) :
  0 ≤ i → a !! Z.to_nat i = Some t → m t = Done r t' →
  at_index i m a = Done r (<[Z.to_nat i := t']> a).
Proof.
  intros Hi Hl Hm. unfold at_index.
  rewrite (in_bounds_lookup a i t Hi Hl), Hl, Hm. reflexivity.
Qed.

Lemma at_index_negative {T A} (i : Z) (m : prog T A) (a : list T) :
  i < 0 → at_index i m a = Undefined.
Proof.
  intros Hi. unfold at_index, in_bounds.
  destruct (Z.leb_spec 0 i); [lia|reflexivity].
Qed.

Lemma fset_PD_layouts_same (d : sg_pipeline_desc) :
  fset PD_layouts (pd_layouts d) d = d.
Proof. destruct d; reflexivity. Qed.

(** Reading the attribute count of the layout in [slot] returns it and
    leaves the descriptor as it is. *)
Lemma read_layout_num_attrs (d : sg_pipeline_desc) (slot : Z) (l : sg_vertex_layout) :
  0 ≤ slot → pd_layouts d !! Z.to_nat slot = Some l →
  within PD_layouts (at_index slot (load VL_num_attrs)) d = Done (vl_num_attrs l) d.
Proof.
  intros Hs Hl. unfold within. cbn [fget PD_layouts].
  rewrite (at_index_Done slot (load VL_num_attrs) _ l l (vl_num_attrs l) Hs Hl eq_refl).
  rewrite list_insert_id by exact Hl.
  rewrite fset_PD_layouts_same. reflexivity.
Qed.

(** C1: when the attribute count of a shader descriptor, or of the
    targeted layout of a pipeline descriptor, already is
    [SG_MAX_VERTEX_ATTRIBUTES], adding an attribute stops in an
    assertion with the descriptor exactly as it was: nothing is stored,
    neither inside nor outside the array, and the count is not changed. *)
Theorem desc_attr_rejected_when_full
    (sd : sg_shader_desc) (pd : sg_pipeline_desc) (slot : Z) (l : sg_vertex_layout)
    (name : c_string) (format : sg_vertex_format) :
  sd_num_attrs sd = SG_MAX_VERTEX_ATTRIBUTES →
  0 ≤ slot < SG_MAX_SHADERSTAGE_BUFFERS →
  pd_layouts pd !! Z.to_nat slot = Some l →
  vl_num_attrs l = SG_MAX_VERTEX_ATTRIBUTES →
  sg_shader_desc_attr name format sd = Abort sd ∧
  sg_pipeline_desc_attr slot name format pd = Abort pd.
Proof.
  intros Hsd Hslot Hl Hn. split.
  - unfold sg_shader_desc_attr, mbind, prog_bind, SOKOL_ASSERT, load.
    destruct (bool_decide (is_Some name) &&
              bool_decide (format ≠ SG_VERTEXFORMAT_INVALID)); [|reflexivity].
    cbn [fget SD_num_attrs]. rewrite Hsd. reflexivity.
  - unfold sg_pipeline_desc_attr, mbind, prog_bind, SOKOL_ASSERT.
    destruct ((0 <=? slot) && (slot <? SG_MAX_SHADERSTAGE_BUFFERS)); [|reflexivity].
    destruct (bool_decide (is_Some name)); [|reflexivity].
    destruct (bool_decide (format ≠ SG_VERTEXFORMAT_INVALID)); [|reflexivity].
    rewrite (read_layout_num_attrs pd slot l) by (lia || exact Hl).
    rewrite Hn. reflexivity.
Qed.

Lemma desc_attr_rejected_when_full_witness :
  sg_shader_desc_attr (Some "position"%string) SG_VERTEXFORMAT_FLOAT3
    (raw_shader_desc 16) = Abort (raw_shader_desc 16) ∧
  sg_pipeline_desc_attr 2 (Some "position"%string) SG_VERTEXFORMAT_FLOAT3
    (raw_pipeline_desc 16) = Abort (raw_pipeline_desc 16).
Proof.
  apply (desc_attr_rejected_when_full (raw_shader_desc 16) (raw_pipeline_desc 16) 2
           (raw_vertex_layout 16)).
  - reflexivity.
  - unfold SG_MAX_SHADERSTAGE_BUFFERS. lia.
  - reflexivity.
  - reflexivity.
Defined.

(** A shader descriptor and a pipeline descriptor filled through the
    functions of the header: after the init and sixteen additions the
    count is 16 and the seventeenth addition is rejected. *)
Example shader_desc_filled_then_rejected :
  ∃ d,
    (sg_init_shader_desc ;;
     for_range 0 16 (λ _,
       sg_shader_desc_attr (Some "texcoord"%string) SG_VERTEXFORMAT_FLOAT2))
      (raw_shader_desc (-1)) = Done tt d ∧
    sd_num_attrs d = 16 ∧
    sg_shader_desc_attr (Some "texcoord"%string) SG_VERTEXFORMAT_FLOAT2 d = Abort d.
Proof.
  eexists. split; [vm_compute; reflexivity|].
  split; vm_compute; reflexivity.
Qed.

Example pipeline_desc_filled_then_rejected :
  ∃ d,
    (sg_init_pipeline_desc ;;
     for_range 0 16 (λ _,
       sg_pipeline_desc_attr 3 (Some "texcoord"%string) SG_VERTEXFORMAT_FLOAT2))
      (raw_pipeline_desc (-1)) = Done tt d ∧
    vl_num_attrs <$> pd_layouts d = [0; 0; 0; 16] ∧
    sg_pipeline_desc_attr 3 (Some "texcoord"%string) SG_VERTEXFORMAT_FLOAT2 d = Abort d ∧
    ∃ d', sg_pipeline_desc_attr 2 (Some "texcoord"%string) SG_VERTEXFORMAT_FLOAT2 d
          = Done tt d' ∧
          vl_num_attrs <$> pd_layouts d' = [0; 0; 1; 16].
Proof.
  eexists. split; [vm_compute; reflexivity|].
  split; [vm_compute; reflexivity|].
  split; [vm_compute; reflexivity|].
  eexists. split; vm_compute; reflexivity.
Qed.

Lemma prog_bind_Done {S A B} (m : prog S A) (k : A → prog S B) (s s' : S) (a : A) :
  m s = Done a s' → (m ≫= k) s = k a s'.
Proof. intros H. unfold mbind, prog_bind. rewrite H. reflexivity. Qed.

Lemma assert_holds_bind {S B} (c : bool) (k : unit → prog S B) (s : S) :
  c = true → (SOKOL_ASSERT c ≫= k) s = k tt s.
Proof. intros ->. reflexivity. Qed.

(** The body that runs on the layout: bump the count, then store the
    name and the format in the element the old count points at. *)
Lemma append_to_layout (l : sg_vertex_layout) (name : c_string)
    (format : sg_vertex_format) (a0 : sg_vertex_attr) :
  0 ≤ vl_num_attrs l →
  vl_attrs l !! Z.to_nat (vl_num_attrs l) = Some a0 →
  (k ← load VL_num_attrs ;
   store VL_num_attrs (k + 1) ;;
   within VL_attrs (at_index k (store VA_name name ;; store VA_format format))) l
  = Done tt {| vl_num_attrs := vl_num_attrs l + 1;
               vl_attrs := <[Z.to_nat (vl_num_attrs l) :=
                               {| va_name := name; va_format := format |}]> (vl_attrs l);
               vl_step_func := vl_step_func l;
               vl_step_rate := vl_step_rate l |}.
Proof.
  intros Hn Ha.
  unfold mbind, prog_bind, load, store, within.
  cbn [fget fset VL_num_attrs VL_attrs vl_attrs vl_num_attrs vl_step_func vl_step_rate].
  rewrite (at_index_Done (vl_num_attrs l) _ (vl_attrs l) a0
             {| va_name := name; va_format := format |} tt Hn Ha) by reflexivity.
  reflexivity.
Qed.

(** C10 (as amended): for a pipeline descriptor of the declared shape, a
    slot in [0, 4), a non-null name, a format other than the invalid one
    and an attribute count of the targeted layout that is at least 0 and
    below 16, [sg_pipeline_desc_attr] returns, stores the name and the
    format at the index the count gave, raises that count by one and
    leaves everything else as it was: the other elements of that
    layout, its step function and rate, the other three layouts, the
    shader id and the depth-stencil, blend and rasterizer states. *)
Theorem sg_pipeline_desc_attr_appends
    (d : sg_pipeline_desc) (slot : Z) (l : sg_vertex_layout)
    (name : c_string) (format : sg_vertex_format) :
  pipeline_desc_shaped d →
  0 ≤ slot < SG_MAX_SHADERSTAGE_BUFFERS →
  is_Some name →
  format ≠ SG_VERTEXFORMAT_INVALID →
  pd_layouts d !! Z.to_nat slot = Some l →
  0 ≤ vl_num_attrs l < SG_MAX_VERTEX_ATTRIBUTES →
  appends_one_attr d slot name format (sg_pipeline_desc_attr slot name format d).
Proof.
  intros [Hlen Hshaped] Hslot Hname Hformat Hl Hn.
  assert (Hlshape : vertex_layout_shaped l)
    by (eapply Forall_lookup_1; [exact Hshaped|exact Hl]).
  unfold vertex_layout_shaped in Hlshape.
  destruct (lookup_lt_is_Some_2 (vl_attrs l) (Z.to_nat (vl_num_attrs l))) as [a0 Ha0].
  { rewrite Hlshape. unfold SG_MAX_VERTEX_ATTRIBUTES in *. lia. }
  pose proof (lookup_lt_Some _ _ _ Hl) as Hslot_lt.
  pose proof (lookup_lt_Some _ _ _ Ha0) as Hn_lt.
  unfold sg_pipeline_desc_attr.
  rewrite assert_holds_bind
    by (apply andb_true_intro; split; [apply Z.leb_le|apply Z.ltb_lt]; lia).
  rewrite assert_holds_bind by (apply bool_decide_eq_true_2; exact Hname).
  rewrite assert_holds_bind by (apply bool_decide_eq_true_2; exact Hformat).
  rewrite (prog_bind_Done _ _ _ _ _ (read_layout_num_attrs d slot l (proj1 Hslot) Hl)).
  rewrite assert_holds_bind by (apply Z.ltb_lt; lia).
  unfold within at 1. cbn [fget PD_layouts].
  rewrite (at_index_Done slot _ (pd_layouts d) l _ tt (proj1 Hslot) Hl
             (append_to_layout l name format a0 (proj1 Hn) Ha0)).
  eexists _, l, _. split; [reflexivity|].
  destruct d as [shader layouts ds blend rast].
  cbn [fset PD_layouts pd_layouts pd_shader pd_depth_stencil pd_blend pd_rast] in *.
  split; [exact Hl|].
  split; [apply list_lookup_insert_eq; exact Hslot_lt|].
  cbn [vl_num_attrs vl_attrs vl_step_func vl_step_rate].
  split; [reflexivity|].
  split; [apply list_lookup_insert_eq; exact Hn_lt|].
  split; [apply length_insert|].
  split; [intros k Hk; apply list_lookup_insert_ne; congruence|].
  do 2 (split; [reflexivity|]).
  split; [apply length_insert|].
  split; [intros j Hj; apply list_lookup_insert_ne; congruence|].
  repeat split.
Qed.

Lemma sg_pipeline_desc_attr_appends_witness :
  appends_one_attr (raw_pipeline_desc 3) 1 (Some "position"%string)
    SG_VERTEXFORMAT_FLOAT3
    (sg_pipeline_desc_attr 1 (Some "position"%string) SG_VERTEXFORMAT_FLOAT3
       (raw_pipeline_desc 3)).
Proof.
  apply (sg_pipeline_desc_attr_appends (raw_pipeline_desc 3) 1 (raw_vertex_layout 3)).
  - split; [reflexivity|].
    vm_compute. repeat (apply Forall_cons; split; [reflexivity|]). apply Forall_nil_2.
  - unfold SG_MAX_SHADERSTAGE_BUFFERS. lia.
  - eexists; reflexivity.
  - discriminate.
  - reflexivity.
  - unfold SG_MAX_VERTEX_ATTRIBUTES. simpl. lia.
Defined.

(** C10 as stated fails on a descriptor whose count is negative: every
    assertion holds, so the call goes on to the element [attrs[-1]],
    which is outside the array. *)
Lemma sg_pipeline_desc_attr_negative_count :
  pipeline_desc_shaped (raw_pipeline_desc (-1)) ∧
  0 ≤ 0 < SG_MAX_SHADERSTAGE_BUFFERS ∧
  is_Some (Some "position"%string) ∧
  SG_VERTEXFORMAT_FLOAT3 ≠ SG_VERTEXFORMAT_INVALID ∧
  pd_layouts (raw_pipeline_desc (-1)) !! Z.to_nat 0 = Some (raw_vertex_layout (-1)) ∧
  vl_num_attrs (raw_vertex_layout (-1)) < SG_MAX_VERTEX_ATTRIBUTES ∧
  sg_pipeline_desc_attr 0 (Some "position"%string) SG_VERTEXFORMAT_FLOAT3
    (raw_pipeline_desc (-1)) = Undefined ∧
  ¬ appends_one_attr (raw_pipeline_desc (-1)) 0 (Some "position"%string)
      SG_VERTEXFORMAT_FLOAT3
      (sg_pipeline_desc_attr 0 (Some "position"%string) SG_VERTEXFORMAT_FLOAT3
         (raw_pipeline_desc (-1))).
Proof.
  assert (E : sg_pipeline_desc_attr 0 (Some "position"%string) SG_VERTEXFORMAT_FLOAT3
                (raw_pipeline_desc (-1)) = Undefined) by (vm_compute; reflexivity).
  split.
  { split; [reflexivity|].
    vm_compute. repeat (apply Forall_cons; split; [reflexivity|]). apply Forall_nil_2. }
  split; [unfold SG_MAX_SHADERSTAGE_BUFFERS; lia|].
  split; [eexists; reflexivity|].
  split; [discriminate|].
  split; [reflexivity|].
  split; [reflexivity|].
  split; [exact E|].
  rewrite E. intros (d' & l & l' & Hr & _). discriminate Hr.
Qed.
(** ** The pools with the example packing *)








(** One slot through its life: the allocation takes it from initial to
    allocated, the init of handle 1 from allocated to valid, the
    destroy of handle 1 from valid back to initial. *)
Lemma slot_lifecycle_witness :
  (SG_RESOURCESTATE_ALLOC = SG_RESOURCESTATE_INITIAL ∨
   lifecycle_edge (payload := nat) OP_ALLOC
     SG_RESOURCESTATE_INITIAL SG_RESOURCESTATE_ALLOC) ∧
  (SG_RESOURCESTATE_VALID = SG_RESOURCESTATE_ALLOC ∨
   lifecycle_edge (OP_INIT 1 (Some 7%nat))
     SG_RESOURCESTATE_ALLOC SG_RESOURCESTATE_VALID) ∧
  (SG_RESOURCESTATE_INITIAL = SG_RESOURCESTATE_VALID ∨
   lifecycle_edge (payload := nat) (OP_DESTROY 1)
     SG_RESOURCESTATE_VALID SG_RESOURCESTATE_INITIAL).
Proof.
  split; [|split].
  - refine (proj1 (slot_lifecycle (payload := nat) example_make_id example_id_parts
                     example_gen_count
                     (pool_setup 1) OP_ALLOC 0
                     SG_RESOURCESTATE_INITIAL SG_RESOURCESTATE_ALLOC _ _ _)).
    + exists 1%nat, []. reflexivity.
    + reflexivity.
    + reflexivity.
  - refine (proj1 (slot_lifecycle (payload := nat) example_make_id example_id_parts
                     example_gen_count
                     (run example_make_id example_id_parts example_gen_count
                        [OP_ALLOC] (pool_setup 1))
                     (OP_INIT 1 (Some 7%nat)) 0
                     SG_RESOURCESTATE_ALLOC SG_RESOURCESTATE_VALID _ _ _)).
    + exists 1%nat, [OP_ALLOC]. reflexivity.
    + reflexivity.
    + vm_compute. reflexivity.
  - refine (proj1 (slot_lifecycle (payload := nat) example_make_id example_id_parts
                     example_gen_count
                     (run example_make_id example_id_parts example_gen_count
                        [OP_ALLOC; OP_INIT 1 (Some 7%nat)] (pool_setup 1))
                     (OP_DESTROY 1) 0
                     SG_RESOURCESTATE_VALID SG_RESOURCESTATE_INITIAL _ _ _)).
    + exists 1%nat, [OP_ALLOC; OP_INIT 1 (Some 7%nat)]. reflexivity.
    + vm_compute. reflexivity.
    + vm_compute. reflexivity.
Defined.

(** * Further properties of the descriptor functions *)

(** ** What the init functions leave *)

(** Turn the arrays of a structure, and the arrays nested in their
    elements, into their elements. *)
Ltac open_arrays :=
  repeat match goal with
  | H : length ?l = _ |- _ =>
      is_var l; destruct l; simpl in H;
      [try discriminate H | try discriminate H; try injection H as H]
  | H : Forall _ (_ :: _) |- _ => apply Forall_cons in H; destruct H
  | H : length (ub_uniforms ?b) = _ |- _ =>
      is_var b; destruct b; cbn [ub_uniforms] in H
  | H : vertex_layout_shaped ?b |- _ =>
      is_var b; destruct b; unfold vertex_layout_shaped in H; cbn [vl_attrs] in H;
      change (Z.to_nat SG_MAX_VERTEX_ATTRIBUTES) with 16%nat in H
  | H : (0 = 0)%nat |- _ => clear H
  | H : Forall _ [] |- _ => clear H
  end.

Lemma default_shader_stage_desc_shaped :
  shader_stage_desc_shaped default_shader_stage_desc.
Proof.
  split; [reflexivity|]. split; [|reflexivity].
  unfold default_shader_stage_desc, st_uniform_blocks.
  apply Forall_replicate. reflexivity.
Qed.

Lemma shader_stage_init_run (s : sg_shader_stage_desc) :
  shader_stage_desc_shaped s →
  _sg_init_shader_stage_desc s = Done tt default_shader_stage_desc.
Proof.
  destruct s as [src nub ntex ubs imgs]. intros (Hub & Huni & Himg).
  cbn [st_uniform_blocks st_images] in *.
  change (Z.to_nat SG_MAX_SHADERSTAGE_UBS) with 4%nat in Hub.
  change (Z.to_nat SG_MAX_UNIFORMS) with 16%nat in Huni.
  change (Z.to_nat SG_MAX_SHADERSTAGE_IMAGES) with 12%nat in Himg.
  open_arrays. vm_compute. reflexivity.
Qed.

(** Whatever a shader stage descriptor of the declared shape holds
    before, [_sg_init_shader_stage_desc] returns and leaves the one
    default value: no source, no uniform blocks and no textures counted,
    every uniform unnamed, of invalid type, at offset 0 with array size
    1, every image unnamed and of invalid type.  That value has the
    declared shape again, and running the function a second time
    changes nothing. *)
Theorem init_shader_stage_desc_defaults (s : sg_shader_stage_desc) :
  shader_stage_desc_shaped s →
  _sg_init_shader_stage_desc s = Done tt default_shader_stage_desc ∧
  shader_stage_desc_shaped default_shader_stage_desc ∧
  (_sg_init_shader_stage_desc ;; _sg_init_shader_stage_desc) s
  = Done tt default_shader_stage_desc.
Proof.
  intros Hs.
  pose proof default_shader_stage_desc_shaped as Hd.
  split; [apply shader_stage_init_run; exact Hs|]. split; [exact Hd|].
  rewrite (prog_bind_Done _ _ _ _ _ (shader_stage_init_run s Hs)).
  apply shader_stage_init_run. exact Hd.
Qed.

Lemma within_Done {S T A} (F : field S T) (m : prog T A) (s : S) (a : A) (t : T) :
  m (fget F s) = Done a t → within F m s = Done a (fset F t s).
Proof. intros H. unfold within. rewrite H. reflexivity. Qed.

Lemma assert_fails_bind {S B} (c : bool) (k : unit → prog S B) (s : S) :
  c = false → (SOKOL_ASSERT c ≫= k) s = Abort s.
Proof. intros ->. reflexivity. Qed.

Lemma prog_bind_Abort {S A B} (m : prog S A) (k : A → prog S B) (s s' : S) :
  m s = Abort s' → (m ≫= k) s = Abort s'.
Proof. intros H. unfold mbind, prog_bind. rewrite H. reflexivity. Qed.

Lemma prog_bind_Undefined {S A B} (m : prog S A) (k : A → prog S B) (s : S) :
  m s = Undefined → (m ≫= k) s = Undefined.
Proof. intros H. unfold mbind, prog_bind. rewrite H. reflexivity. Qed.

Lemma shader_desc_init_run (d : sg_shader_desc) :
  shader_desc_storage d →
  sg_init_shader_desc d = Done tt default_shader_desc.
Proof.
  intros (Hvs & Hfs & Hattrs).
  unfold sg_init_shader_desc.
  rewrite (prog_bind_Done _ _ _ _ _
             (within_Done SD_vs _ d _ _
                (shader_stage_init_run (sd_vs d) Hvs))).
  rewrite (prog_bind_Done _ _ _ _ _
             (within_Done SD_fs _ (fset SD_vs default_shader_stage_desc d) _ _
                (shader_stage_init_run (sd_fs d) Hfs))).
  destruct d as [vs fs n attrs].
  unfold shader_desc_shaped in Hattrs. cbn [sd_attrs] in Hattrs.
  change (Z.to_nat SG_MAX_VERTEX_ATTRIBUTES) with 16%nat in Hattrs.
  open_arrays. vm_compute. reflexivity.
Qed.

(** Whatever a shader descriptor of the declared shape holds before,
    [sg_init_shader_desc] returns and leaves the one default value:
    both stages as [_sg_init_shader_stage_desc] leaves them, the
    attribute count 0 and all sixteen attributes unnamed with the
    invalid format.  That value has the declared shape again, and
    running the function a second time changes nothing. *)
Theorem sg_init_shader_desc_defaults (d : sg_shader_desc) :
  shader_desc_storage d →
  sg_init_shader_desc d = Done tt default_shader_desc ∧
  shader_desc_storage default_shader_desc ∧
  (sg_init_shader_desc ;; sg_init_shader_desc) d = Done tt default_shader_desc.
Proof.
  intros Hs.
  assert (Hd : shader_desc_storage default_shader_desc).
  { split; [exact default_shader_stage_desc_shaped|].
    split; [exact default_shader_stage_desc_shaped|reflexivity]. }
  split; [apply shader_desc_init_run; exact Hs|]. split; [exact Hd|].
  rewrite (prog_bind_Done _ _ _ _ _ (shader_desc_init_run d Hs)).
  apply shader_desc_init_run. exact Hd.
Qed.

Lemma sg_init_shader_desc_defaults_witness :
  sg_init_shader_desc (raw_shader_desc 11) = Done tt default_shader_desc.
Proof.
  refine (proj1 (sg_init_shader_desc_defaults (raw_shader_desc 11) _)).
  assert (Hst : shader_stage_desc_shaped raw_shader_stage_desc).
  { split; [reflexivity|]. split; [|reflexivity].
    vm_compute. repeat (apply Forall_cons; split; [reflexivity|]). apply Forall_nil_2. }
  split; [exact Hst|]. split; [exact Hst|]. reflexivity.
Defined.

Lemma init_shader_stage_desc_defaults_witness :
  _sg_init_shader_stage_desc raw_shader_stage_desc = Done tt default_shader_stage_desc.
Proof.
  refine (proj1 (init_shader_stage_desc_defaults raw_shader_stage_desc _)).
  split; [reflexivity|]. split; [|reflexivity].
  vm_compute. repeat (apply Forall_cons; split; [reflexivity|]). apply Forall_nil_2.
Defined.

Lemma pipeline_desc_init_run (d : sg_pipeline_desc) :
  pipeline_desc_storage d →
  sg_init_pipeline_desc d = Done tt default_pipeline_desc.
Proof.
  destruct d as [shader layouts ds blend rast].
  intros ((Hlen & Hlayouts) & Hcolor).
  destruct blend as [? ? ? ? ? ? ? ? color].
  cbn [pd_layouts pd_blend bs_blend_color] in *.
  change (Z.to_nat SG_MAX_SHADERSTAGE_BUFFERS) with 4%nat in Hlen.
  open_arrays. vm_compute. reflexivity.
Qed.

(** Whatever a pipeline descriptor of the declared shape holds before,
    [sg_init_pipeline_desc] returns and leaves the one default value:
    the shader id [SG_INVALID_ID]; four empty per-vertex layouts with
    step rate 1; depth and stencil tests that always pass, write nothing
    and keep the stencil, with masks 0xFF and reference 0; blending off
    with factors one and zero, operation add, write mask RGBA and blend
    color (1, 1, 1, 1); no culling (back face selected), no scissor
    test, dithering on, no alpha-to-coverage.  That value has the
    declared shape again, and running the function a second time
    changes nothing. *)
Theorem sg_init_pipeline_desc_defaults (d : sg_pipeline_desc) :
  pipeline_desc_storage d →
  sg_init_pipeline_desc d = Done tt default_pipeline_desc ∧
  pipeline_desc_storage default_pipeline_desc ∧
  (sg_init_pipeline_desc ;; sg_init_pipeline_desc) d = Done tt default_pipeline_desc.
Proof.
  intros Hs.
  assert (Hd : pipeline_desc_storage default_pipeline_desc).
  { split; [|reflexivity]. split; [reflexivity|].
    unfold default_pipeline_desc, pd_layouts.
    apply Forall_replicate. reflexivity. }
  split; [apply pipeline_desc_init_run; exact Hs|]. split; [exact Hd|].
  rewrite (prog_bind_Done _ _ _ _ _ (pipeline_desc_init_run d Hs)).
  apply pipeline_desc_init_run. exact Hd.
Qed.

Lemma sg_init_pipeline_desc_defaults_witness :
  sg_init_pipeline_desc (raw_pipeline_desc 9) = Done tt default_pipeline_desc.
Proof.
  refine (proj1 (sg_init_pipeline_desc_defaults (raw_pipeline_desc 9) _)).
  split; [|reflexivity]. split; [reflexivity|].
  vm_compute. repeat (apply Forall_cons; split; [reflexivity|]). apply Forall_nil_2.
Defined.

(** ** The outcomes of adding an attribute *)

Lemma vertex_attr_ok_test (name : c_string) (format : sg_vertex_format) :
  bool_decide (is_Some name) && bool_decide (format ≠ SG_VERTEXFORMAT_INVALID) = true
  ↔ vertex_attr_ok name format.
Proof.
  unfold vertex_attr_ok.
  rewrite andb_true_iff, !bool_decide_eq_true. reflexivity.
Qed.

Lemma store_attr (name : c_string) (format : sg_vertex_format) (a : sg_vertex_attr) :
  (store VA_name name ;; store VA_format format) a
  = Done tt {| va_name := name; va_format := format |}.
Proof. reflexivity. Qed.

Lemma sg_shader_desc_attr_rejects (d : sg_shader_desc) (name : c_string)
    (format : sg_vertex_format) :
  ¬ vertex_attr_ok name format ∨ SG_MAX_VERTEX_ATTRIBUTES ≤ sd_num_attrs d →
  sg_shader_desc_attr name format d = Abort d.
Proof.
  intros Hcase. unfold sg_shader_desc_attr.
  destruct (bool_decide (is_Some name) &&
            bool_decide (format ≠ SG_VERTEXFORMAT_INVALID)) eqn:Hok.
  - rewrite assert_holds_bind by reflexivity.
    rewrite (prog_bind_Done (load SD_num_attrs) _ d d (sd_num_attrs d) eq_refl).
    apply assert_fails_bind. apply Z.ltb_ge.
    destruct Hcase as [Hno|Hfull]; [|exact Hfull].
    exfalso. apply Hno. apply vertex_attr_ok_test. exact Hok.
  - apply assert_fails_bind. reflexivity.
Qed.

Lemma sg_shader_desc_attr_passes (d : sg_shader_desc) (name : c_string)
    (format : sg_vertex_format) :
  vertex_attr_ok name format →
  sd_num_attrs d < SG_MAX_VERTEX_ATTRIBUTES →
  sg_shader_desc_attr name format d =
  within SD_attrs
    (at_index (sd_num_attrs d) (store VA_name name ;; store VA_format format))
    (fset SD_num_attrs (sd_num_attrs d + 1) d).
Proof.
  intros Hok Hn. unfold sg_shader_desc_attr.
  rewrite assert_holds_bind by (apply vertex_attr_ok_test; exact Hok).
  rewrite (prog_bind_Done (load SD_num_attrs) _ d d (sd_num_attrs d) eq_refl).
  rewrite assert_holds_bind by (apply Z.ltb_lt; exact Hn).
  rewrite (prog_bind_Done (store SD_num_attrs (sd_num_attrs d + 1)) _ d
             (fset SD_num_attrs (sd_num_attrs d + 1) d) tt eq_refl).
  reflexivity.
Qed.

Lemma sg_shader_desc_attr_done (d : sg_shader_desc) (name : c_string)
    (format : sg_vertex_format) :
  shader_desc_shaped d →
  vertex_attr_ok name format →
  0 ≤ sd_num_attrs d < SG_MAX_VERTEX_ATTRIBUTES →
  sg_shader_desc_attr name format d = Done tt (shader_desc_push d name format).
Proof.
  intros Hshape Hok Hn. unfold shader_desc_shaped in Hshape.
  change (Z.to_nat SG_MAX_VERTEX_ATTRIBUTES) with 16%nat in Hshape.
  rewrite sg_shader_desc_attr_passes by (assumption || lia).
  destruct (lookup_lt_is_Some_2 (sd_attrs d) (Z.to_nat (sd_num_attrs d)))
    as [a0 Ha0]; [unfold SG_MAX_VERTEX_ATTRIBUTES in Hn; lia|].
  rewrite (within_Done SD_attrs _ _ tt
             (<[Z.to_nat (sd_num_attrs d) :=
                  {| va_name := name; va_format := format |}]> (sd_attrs d))).
  - destruct d; reflexivity.
  - apply (at_index_Done _ _ _ a0); [lia| |apply store_attr].
    destruct d; exact Ha0.
Qed.

Lemma sg_shader_desc_attr_undefined (d : sg_shader_desc) (name : c_string)
    (format : sg_vertex_format) :
  vertex_attr_ok name format → sd_num_attrs d < 0 →
  sg_shader_desc_attr name format d = Undefined.
Proof.
  intros Hok Hn.
  rewrite sg_shader_desc_attr_passes
    by (assumption || unfold SG_MAX_VERTEX_ATTRIBUTES; lia).
  unfold within. rewrite at_index_negative by exact Hn. reflexivity.
Qed.

(** The three outcomes of [sg_shader_desc_attr] on a descriptor of the
    declared shape.  It stops in an assertion, with the descriptor
    unchanged, exactly when the name is null, the format is the invalid
    one or the count is 16 or more.  Otherwise, with a count from 0 to
    15, it returns the descriptor with the name and format stored at the
    index the count gave and the count raised by one, both stages and
    every other attribute as they were.  With arguments that pass and a
    negative count it reaches an element before the array.  A failed
    assertion never leaves a changed descriptor behind. *)
Theorem sg_shader_desc_attr_outcome (d : sg_shader_desc) (name : c_string)
    (format : sg_vertex_format) :
  shader_desc_shaped d →
  (¬ vertex_attr_ok name format ∨ SG_MAX_VERTEX_ATTRIBUTES ≤ sd_num_attrs d →
   sg_shader_desc_attr name format d = Abort d) ∧
  (vertex_attr_ok name format → 0 ≤ sd_num_attrs d < SG_MAX_VERTEX_ATTRIBUTES →
   sg_shader_desc_attr name format d = Done tt (shader_desc_push d name format)) ∧
  (vertex_attr_ok name format → sd_num_attrs d < 0 →
   sg_shader_desc_attr name format d = Undefined) ∧
  (∀ s, sg_shader_desc_attr name format d = Abort s → s = d).
Proof.
  intros Hshape.
  split; [apply sg_shader_desc_attr_rejects|].
  split; [apply sg_shader_desc_attr_done; exact Hshape|].
  split; [apply sg_shader_desc_attr_undefined|].
  intros s Hs.
  destruct (decide (vertex_attr_ok name format)) as [Hok|Hno].
  - destruct (Z_lt_le_dec (sd_num_attrs d) SG_MAX_VERTEX_ATTRIBUTES) as [Hlt|Hge].
    + destruct (Z_lt_le_dec (sd_num_attrs d) 0) as [Hneg|Hpos].
      * rewrite sg_shader_desc_attr_undefined in Hs by assumption. discriminate.
      * rewrite sg_shader_desc_attr_done in Hs by (assumption || lia). discriminate.
    + rewrite sg_shader_desc_attr_rejects in Hs by (right; exact Hge). congruence.
  - rewrite sg_shader_desc_attr_rejects in Hs by (left; exact Hno). congruence.
Qed.

Lemma sg_shader_desc_attr_outcome_witness :
  sg_shader_desc_attr (Some "normal"%string) SG_VERTEXFORMAT_BYTE4N (raw_shader_desc 5)
  = Done tt (shader_desc_push (raw_shader_desc 5)
               (Some "normal"%string) SG_VERTEXFORMAT_BYTE4N) ∧
  sg_shader_desc_attr None SG_VERTEXFORMAT_BYTE4N (raw_shader_desc 5)
  = Abort (raw_shader_desc 5).
Proof.
  pose proof (sg_shader_desc_attr_outcome (raw_shader_desc 5)
                (Some "normal"%string) SG_VERTEXFORMAT_BYTE4N eq_refl)
    as (_ & Hdone & _).
  pose proof (sg_shader_desc_attr_outcome (raw_shader_desc 5)
                None SG_VERTEXFORMAT_BYTE4N eq_refl)
    as (Habort & _).
  split.
  - apply Hdone.
    + split; [eexists; reflexivity|discriminate].
    + unfold SG_MAX_VERTEX_ATTRIBUTES. simpl. lia.
  - apply Habort. left. intros [[x Hx] _]. discriminate Hx.
Defined.

Lemma at_index_Undefined {T A} (i : Z) (m : prog T A) (a : list T) (t : T) :
  0 ≤ i → a !! Z.to_nat i = Some t → m t = Undefined →
  at_index i m a = Undefined.
Proof.
  intros Hi Hl Hm. unfold at_index.
  rewrite (in_bounds_lookup a i t Hi Hl), Hl, Hm. reflexivity.
Qed.

Lemma list_alter_lookup_insert {T} (f : T → T) (l : list T) (i : nat) (x : T) :
  l !! i = Some x → alter f i l = <[i := f x]> l.
Proof.
  intros Hx. apply list_eq. intros j.
  destruct (decide (i = j)) as [<-|Hne].
  - rewrite list_lookup_alter_eq, Hx.
    rewrite list_lookup_insert_eq by (eapply lookup_lt_Some; exact Hx). reflexivity.
  - rewrite list_lookup_alter_ne, list_lookup_insert_ne by exact Hne. reflexivity.
Qed.

Lemma slot_in_range_test (slot : Z) :
  (0 <=? slot) && (slot <? SG_MAX_SHADERSTAGE_BUFFERS) = true
  ↔ 0 ≤ slot < SG_MAX_SHADERSTAGE_BUFFERS.
Proof. rewrite andb_true_iff, Z.leb_le, Z.ltb_lt. reflexivity. Qed.

Lemma sg_pipeline_desc_attr_rejects (d : sg_pipeline_desc) (slot : Z)
    (name : c_string) (format : sg_vertex_format) :
  ¬ 0 ≤ slot < SG_MAX_SHADERSTAGE_BUFFERS ∨ ¬ vertex_attr_ok name format →
  sg_pipeline_desc_attr slot name format d = Abort d.
Proof.
  intros Hcase. unfold sg_pipeline_desc_attr.
  destruct ((0 <=? slot) && (slot <? SG_MAX_SHADERSTAGE_BUFFERS)) eqn:Hslot;
    [|apply assert_fails_bind; reflexivity].
  rewrite assert_holds_bind by reflexivity.
  destruct (bool_decide (is_Some name)) eqn:Hname;
    [|apply assert_fails_bind; reflexivity].
  rewrite assert_holds_bind by reflexivity.
  destruct (bool_decide (format ≠ SG_VERTEXFORMAT_INVALID)) eqn:Hformat;
    [|apply assert_fails_bind; reflexivity].
  exfalso. destruct Hcase as [Hno|Hno]; apply Hno.
  - apply slot_in_range_test. exact Hslot.
  - split; eapply bool_decide_eq_true_1; eassumption.
Qed.

Lemma sg_pipeline_desc_attr_full (d : sg_pipeline_desc) (slot : Z)
    (l : sg_vertex_layout) (name : c_string) (format : sg_vertex_format) :
  0 ≤ slot →
  pd_layouts d !! Z.to_nat slot = Some l →
  SG_MAX_VERTEX_ATTRIBUTES ≤ vl_num_attrs l →
  sg_pipeline_desc_attr slot name format d = Abort d.
Proof.
  intros Hslot Hl Hn. unfold sg_pipeline_desc_attr, mbind, prog_bind, SOKOL_ASSERT.
  destruct ((0 <=? slot) && (slot <? SG_MAX_SHADERSTAGE_BUFFERS)); [|reflexivity].
  destruct (bool_decide (is_Some name)); [|reflexivity].
  destruct (bool_decide (format ≠ SG_VERTEXFORMAT_INVALID)); [|reflexivity].
  rewrite (read_layout_num_attrs d slot l Hslot Hl).
  replace (vl_num_attrs l <? SG_MAX_VERTEX_ATTRIBUTES) with false
    by (symmetry; apply Z.ltb_ge; exact Hn).
  reflexivity.
Qed.

Lemma sg_pipeline_desc_attr_passes (d : sg_pipeline_desc) (slot : Z)
    (l : sg_vertex_layout) (name : c_string) (format : sg_vertex_format) :
  0 ≤ slot < SG_MAX_SHADERSTAGE_BUFFERS →
  vertex_attr_ok name format →
  pd_layouts d !! Z.to_nat slot = Some l →
  vl_num_attrs l < SG_MAX_VERTEX_ATTRIBUTES →
  sg_pipeline_desc_attr slot name format d =
  within PD_layouts (at_index slot (
    k ← load VL_num_attrs ;
    store VL_num_attrs (k + 1) ;;
    within VL_attrs (at_index k (store VA_name name ;; store VA_format format)))) d.
Proof.
  intros Hslot [Hname Hformat] Hl Hn. unfold sg_pipeline_desc_attr.
  rewrite assert_holds_bind by (apply slot_in_range_test; exact Hslot).
  rewrite assert_holds_bind by (apply bool_decide_eq_true_2; exact Hname).
  rewrite assert_holds_bind by (apply bool_decide_eq_true_2; exact Hformat).
  rewrite (prog_bind_Done _ _ _ _ _ (read_layout_num_attrs d slot l (proj1 Hslot) Hl)).
  rewrite assert_holds_bind by (apply Z.ltb_lt; exact Hn).
  reflexivity.
Qed.

Lemma sg_pipeline_desc_attr_done (d : sg_pipeline_desc) (slot : Z)
    (l : sg_vertex_layout) (name : c_string) (format : sg_vertex_format) :
  pipeline_desc_shaped d →
  0 ≤ slot < SG_MAX_SHADERSTAGE_BUFFERS →
  pd_layouts d !! Z.to_nat slot = Some l →
  vertex_attr_ok name format →
  0 ≤ vl_num_attrs l < SG_MAX_VERTEX_ATTRIBUTES →
  sg_pipeline_desc_attr slot name format d
  = Done tt (pipeline_desc_push d slot name format).
Proof.
  intros [_ Hshaped] Hslot Hl Hok Hn.
  rewrite (sg_pipeline_desc_attr_passes d slot l) by (assumption || lia).
  assert (Hlshape : vertex_layout_shaped l)
    by (eapply Forall_lookup_1; [exact Hshaped|exact Hl]).
  unfold vertex_layout_shaped in Hlshape.
  change (Z.to_nat SG_MAX_VERTEX_ATTRIBUTES) with 16%nat in Hlshape.
  destruct (lookup_lt_is_Some_2 (vl_attrs l) (Z.to_nat (vl_num_attrs l)))
    as [a0 Ha0]; [unfold SG_MAX_VERTEX_ATTRIBUTES in Hn; lia|].
  rewrite (within_Done PD_layouts _ d tt
             (<[Z.to_nat slot := vertex_layout_push l name format]> (pd_layouts d))).
  - unfold pipeline_desc_push.
    rewrite (list_alter_lookup_insert _ _ _ l Hl). destruct d; reflexivity.
  - apply (at_index_Done _ _ _ l); [lia|exact Hl|].
    apply (append_to_layout l name format a0); [lia|exact Ha0].
Qed.

Lemma sg_pipeline_desc_attr_undefined (d : sg_pipeline_desc) (slot : Z)
    (l : sg_vertex_layout) (name : c_string) (format : sg_vertex_format) :
  0 ≤ slot < SG_MAX_SHADERSTAGE_BUFFERS →
  pd_layouts d !! Z.to_nat slot = Some l →
  vertex_attr_ok name format →
  vl_num_attrs l < 0 →
  sg_pipeline_desc_attr slot name format d = Undefined.
Proof.
  intros Hslot Hl Hok Hn.
  rewrite (sg_pipeline_desc_attr_passes d slot l)
    by (assumption || unfold SG_MAX_VERTEX_ATTRIBUTES; lia).
  unfold within at 1.
  rewrite (at_index_Undefined slot _ (fget PD_layouts d) l);
    [reflexivity|lia|exact Hl|].
  rewrite (prog_bind_Done (load VL_num_attrs) _ l l (vl_num_attrs l) eq_refl).
  rewrite (prog_bind_Done (store VL_num_attrs (vl_num_attrs l + 1)) _ l
             (fset VL_num_attrs (vl_num_attrs l + 1) l) tt eq_refl).
  unfold within. rewrite at_index_negative by exact Hn. reflexivity.
Qed.

(** The three outcomes of [sg_pipeline_desc_attr] on a descriptor of the
    declared shape.  It stops in an assertion, with the descriptor
    unchanged, when the slot is outside [0, 4), the name is null, the
    format is the invalid one, or the count of the targeted layout is 16
    or more.  With a slot, a name and a format that pass and a count
    from 0 to 15 it returns the descriptor in which that one layout has
    the attribute stored at the index its count gave and its count
    raised by one.  With a negative count it reaches an element before
    the array.  A failed assertion never leaves a changed descriptor
    behind. *)
Theorem sg_pipeline_desc_attr_outcome (d : sg_pipeline_desc) (slot : Z)
    (name : c_string) (format : sg_vertex_format) :
  pipeline_desc_shaped d →
  (¬ 0 ≤ slot < SG_MAX_SHADERSTAGE_BUFFERS ∨ ¬ vertex_attr_ok name format →
   sg_pipeline_desc_attr slot name format d = Abort d) ∧
  (∀ l, 0 ≤ slot < SG_MAX_SHADERSTAGE_BUFFERS →
     pd_layouts d !! Z.to_nat slot = Some l →
     (SG_MAX_VERTEX_ATTRIBUTES ≤ vl_num_attrs l →
      sg_pipeline_desc_attr slot name format d = Abort d) ∧
     (vertex_attr_ok name format → 0 ≤ vl_num_attrs l < SG_MAX_VERTEX_ATTRIBUTES →
      sg_pipeline_desc_attr slot name format d
      = Done tt (pipeline_desc_push d slot name format)) ∧
     (vertex_attr_ok name format → vl_num_attrs l < 0 →
      sg_pipeline_desc_attr slot name format d = Undefined)) ∧
  (∀ s, sg_pipeline_desc_attr slot name format d = Abort s → s = d).
Proof.
  intros Hshape.
  split; [apply sg_pipeline_desc_attr_rejects|].
  split.
  { intros l Hslot Hl.
    split; [apply (sg_pipeline_desc_attr_full d slot l); [lia|exact Hl]|].
    split; [apply (sg_pipeline_desc_attr_done d slot l); assumption|].
    apply (sg_pipeline_desc_attr_undefined d slot l); assumption. }
  intros s Hs.
  destruct (decide (0 ≤ slot < SG_MAX_SHADERSTAGE_BUFFERS)) as [Hslot|Hno];
    [|rewrite sg_pipeline_desc_attr_rejects in Hs by (left; exact Hno); congruence].
  destruct (decide (vertex_attr_ok name format)) as [Hok|Hno];
    [|rewrite sg_pipeline_desc_attr_rejects in Hs by (right; exact Hno); congruence].
  destruct (lookup_lt_is_Some_2 (pd_layouts d) (Z.to_nat slot)) as [l Hl].
  { destruct Hshape as [Hlen _]. rewrite Hlen.
    unfold SG_MAX_SHADERSTAGE_BUFFERS in *. lia. }
  destruct (Z_lt_le_dec (vl_num_attrs l) SG_MAX_VERTEX_ATTRIBUTES) as [Hlt|Hge].
  - destruct (Z_lt_le_dec (vl_num_attrs l) 0) as [Hneg|Hpos].
    + rewrite (sg_pipeline_desc_attr_undefined d slot l) in Hs by assumption.
      discriminate.
    + rewrite (sg_pipeline_desc_attr_done d slot l) in Hs by (assumption || lia).
      discriminate.
  - rewrite (sg_pipeline_desc_attr_full d slot l) in Hs by (lia || assumption).
    congruence.
Qed.

Lemma raw_pipeline_desc_shaped (n : Z) : pipeline_desc_shaped (raw_pipeline_desc n).
Proof.
  split; [reflexivity|]. unfold raw_pipeline_desc, pd_layouts.
  apply Forall_replicate. reflexivity.
Qed.

Lemma sg_pipeline_desc_attr_outcome_witness :
  sg_pipeline_desc_attr 2 (Some "normal"%string) SG_VERTEXFORMAT_BYTE4N
    (raw_pipeline_desc 5)
  = Done tt (pipeline_desc_push (raw_pipeline_desc 5) 2
               (Some "normal"%string) SG_VERTEXFORMAT_BYTE4N) ∧
  sg_pipeline_desc_attr 7 (Some "normal"%string) SG_VERTEXFORMAT_BYTE4N
    (raw_pipeline_desc 5)
  = Abort (raw_pipeline_desc 5).
Proof.
  pose proof (sg_pipeline_desc_attr_outcome (raw_pipeline_desc 5) 2
                (Some "normal"%string) SG_VERTEXFORMAT_BYTE4N
                (raw_pipeline_desc_shaped 5))
    as (_ & Hin & _).
  pose proof (sg_pipeline_desc_attr_outcome (raw_pipeline_desc 5) 7
                (Some "normal"%string) SG_VERTEXFORMAT_BYTE4N
                (raw_pipeline_desc_shaped 5))
    as (Habort & _).
  split.
  - apply (Hin (raw_vertex_layout 5)).
    + unfold SG_MAX_SHADERSTAGE_BUFFERS. lia.
    + reflexivity.
    + split; [eexists; reflexivity|discriminate].
    + unfold SG_MAX_VERTEX_ATTRIBUTES. simpl. lia.
  - apply Habort. left. unfold SG_MAX_SHADERSTAGE_BUFFERS. lia.
Defined.

(** ** Descriptors built through the header's functions *)

Lemma attrs_filled_default :
  attrs_filled 0 (replicate (Z.to_nat SG_MAX_VERTEX_ATTRIBUTES) default_vertex_attr).
Proof.
  split; [rewrite length_replicate; unfold SG_MAX_VERTEX_ATTRIBUTES; lia|].
  intros i a Ha. apply lookup_replicate_1 in Ha as [-> _].
  destruct (decide (Z.of_nat i < 0)); [lia|reflexivity].
Qed.

Lemma attrs_filled_push (n : Z) (attrs : list sg_vertex_attr)
    (name : c_string) (format : sg_vertex_format) :
  attrs_filled n attrs →
  n < Z.of_nat (length attrs) →
  vertex_attr_ok name format →
  attrs_filled (n + 1)
    (<[Z.to_nat n := {| va_name := name; va_format := format |}]> attrs).
Proof.
  intros [Hn Hall] Hlt Hok. split; [rewrite length_insert; lia|].
  intros i a Ha.
  destruct (decide (i = Z.to_nat n)) as [->|Hne].
  - rewrite list_lookup_insert_eq in Ha by lia. injection Ha as <-.
    destruct (decide (Z.of_nat (Z.to_nat n) < n + 1)); [exact Hok|lia].
  - rewrite list_lookup_insert_ne in Ha by congruence.
    specialize (Hall i a Ha).
    destruct (decide (Z.of_nat i < n)), (decide (Z.of_nat i < n + 1));
      try assumption; lia.
Qed.

(** The descriptor [sg_init_shader_desc] leaves has its attribute array
    in order with count 0, and [sg_shader_desc_attr] keeps the array in
    order: on such a descriptor it never reaches outside the array; it
    either stops in an assertion with the descriptor unchanged, or
    returns a descriptor whose count is one higher, at most 16, whose
    first count-many attributes all have a name and a format and whose
    remaining attributes are still as init left them. *)
Theorem shader_desc_wf_kept :
  shader_desc_wf default_shader_desc ∧
  ∀ d name format,
    shader_desc_wf d →
    sg_shader_desc_attr name format d = Abort d ∨
    ∃ d', sg_shader_desc_attr name format d = Done tt d' ∧
          shader_desc_wf d' ∧
          sd_num_attrs d' = sd_num_attrs d + 1 ∧
          sd_num_attrs d' ≤ SG_MAX_VERTEX_ATTRIBUTES.
Proof.
  split.
  { split; [reflexivity|apply attrs_filled_default]. }
  intros d name format [Hshape Hfilled].
  pose proof (sg_shader_desc_attr_rejects d name format) as Habort.
  pose proof (sg_shader_desc_attr_done d name format Hshape) as Hdone.
  pose proof Hfilled as [Hn _].
  pose proof Hshape as Hlen. unfold shader_desc_shaped in Hlen.
  change (Z.to_nat SG_MAX_VERTEX_ATTRIBUTES) with 16%nat in Hlen.
  destruct (decide (vertex_attr_ok name format)) as [Hok|Hno];
    [|left; apply Habort; left; exact Hno].
  destruct (Z_lt_le_dec (sd_num_attrs d) SG_MAX_VERTEX_ATTRIBUTES) as [Hlt|Hge];
    [|left; apply Habort; right; exact Hge].
  right. exists (shader_desc_push d name format).
  split; [apply Hdone; [exact Hok|lia]|].
  split.
  - split.
    + unfold shader_desc_shaped, shader_desc_push. cbn [sd_attrs].
      rewrite length_insert. exact Hshape.
    + unfold shader_desc_push. cbn [sd_attrs sd_num_attrs].
      apply attrs_filled_push; [exact Hfilled| |exact Hok].
      rewrite Hlen. unfold SG_MAX_VERTEX_ATTRIBUTES in Hlt. lia.
  - split; [reflexivity|]. unfold shader_desc_push. cbn [sd_num_attrs]. lia.
Qed.

Lemma vertex_layout_wf_push (l : sg_vertex_layout) (name : c_string)
    (format : sg_vertex_format) :
  vertex_layout_wf l →
  vertex_attr_ok name format →
  vl_num_attrs l < SG_MAX_VERTEX_ATTRIBUTES →
  vertex_layout_wf (vertex_layout_push l name format).
Proof.
  intros [Hshape Hfilled] Hok Hlt.
  pose proof Hshape as Hlen. unfold vertex_layout_shaped in Hlen.
  change (Z.to_nat SG_MAX_VERTEX_ATTRIBUTES) with 16%nat in Hlen.
  split.
  - unfold vertex_layout_shaped, vertex_layout_push. cbn [vl_attrs].
    rewrite length_insert. exact Hshape.
  - unfold vertex_layout_push. cbn [vl_attrs vl_num_attrs].
    apply attrs_filled_push; [exact Hfilled| |exact Hok].
    rewrite Hlen. unfold SG_MAX_VERTEX_ATTRIBUTES in Hlt. lia.
Qed.

Lemma pipeline_desc_wf_shaped (d : sg_pipeline_desc) :
  pipeline_desc_wf d → pipeline_desc_shaped d.
Proof.
  intros [Hlen Hall]. split; [exact Hlen|].
  eapply Forall_impl; [exact Hall|]. intros l [Hl _]. exact Hl.
Qed.

(** The descriptor [sg_init_pipeline_desc] leaves has all four attribute
    arrays in order with count 0, and [sg_pipeline_desc_attr] keeps them
    in order: on such a descriptor it never reaches outside an array; it
    either stops in an assertion with the descriptor unchanged, or
    returns a descriptor in which the targeted layout has one attribute
    more, at most 16, and every attribute below each layout's count has
    a name and a format. *)
Theorem pipeline_desc_wf_kept :
  pipeline_desc_wf default_pipeline_desc ∧
  ∀ d slot name format,
    pipeline_desc_wf d →
    sg_pipeline_desc_attr slot name format d = Abort d ∨
    ∃ d' l l',
      sg_pipeline_desc_attr slot name format d = Done tt d' ∧
      pipeline_desc_wf d' ∧
      pd_layouts d !! Z.to_nat slot = Some l ∧
      pd_layouts d' !! Z.to_nat slot = Some l' ∧
      vl_num_attrs l' = vl_num_attrs l + 1 ∧
      vl_num_attrs l' ≤ SG_MAX_VERTEX_ATTRIBUTES.
Proof.
  split.
  { split; [reflexivity|]. unfold default_pipeline_desc, pd_layouts.
    apply Forall_replicate. split; [reflexivity|apply attrs_filled_default]. }
  intros d slot name format Hwf.
  pose proof (pipeline_desc_wf_shaped d Hwf) as Hshape.
  destruct Hwf as [Hlen Hall].
  change (Z.to_nat SG_MAX_SHADERSTAGE_BUFFERS) with 4%nat in Hlen.
  pose proof (sg_pipeline_desc_attr_rejects d slot name format) as Habort.
  destruct (decide (0 ≤ slot < SG_MAX_SHADERSTAGE_BUFFERS)) as [Hslot|Hno];
    [|left; apply Habort; left; exact Hno].
  destruct (decide (vertex_attr_ok name format)) as [Hok|Hno];
    [|left; apply Habort; right; exact Hno].
  destruct (lookup_lt_is_Some_2 (pd_layouts d) (Z.to_nat slot)) as [l Hl];
    [unfold SG_MAX_SHADERSTAGE_BUFFERS in Hslot; lia|].
  pose proof (sg_pipeline_desc_attr_full d slot l name format (proj1 Hslot) Hl)
    as Hfull.
  pose proof (sg_pipeline_desc_attr_done d slot l name format Hshape Hslot Hl)
    as Hdone.
  assert (Hlwf : vertex_layout_wf l)
    by (eapply Forall_lookup_1; [exact Hall|exact Hl]).
  pose proof Hlwf as [_ [Hn _]].
  destruct (Z_lt_le_dec (vl_num_attrs l) SG_MAX_VERTEX_ATTRIBUTES) as [Hlt|Hge];
    [|left; apply Hfull; exact Hge].
  right. exists (pipeline_desc_push d slot name format), l,
                (vertex_layout_push l name format).
  split; [apply Hdone; [exact Hok|lia]|].
  unfold pipeline_desc_push. cbn [pd_layouts].
  split.
  - split; cbn [pd_layouts].
    + rewrite length_alter. exact Hlen.
    + apply Forall_alter; [exact Hall|].
      intros l0 Hl0 _. rewrite Hl in Hl0. injection Hl0 as <-.
      apply vertex_layout_wf_push; assumption.
  - split; [exact Hl|].
    split; [rewrite list_lookup_alter_eq, Hl; reflexivity|].
    split; [reflexivity|]. cbn [vertex_layout_push vl_num_attrs]. lia.
Qed.

(** ** Adding the attributes of a list *)

Lemma attrs_with_nil (n : Z) (attrs : list sg_vertex_attr) :
  attrs_with n attrs [] = attrs.
Proof.
  unfold attrs_with. simpl. rewrite Nat.add_0_r. apply take_drop.
Qed.

Lemma attrs_with_cons (n : Z) (attrs : list sg_vertex_attr)
    (a : c_string * sg_vertex_format) (l : list (c_string * sg_vertex_format)) :
  0 ≤ n → (Z.to_nat n < length attrs)%nat →
  attrs_with (n + 1) (<[Z.to_nat n := vertex_attr_of a]> attrs) l
  = attrs_with n attrs (a :: l).
Proof.
  intros Hn Hlt. unfold attrs_with.
  replace (Z.to_nat (n + 1)) with (S (Z.to_nat n)) by lia.
  rewrite (take_S_r _ _ (vertex_attr_of a))
    by (apply list_lookup_insert_eq; exact Hlt).
  rewrite take_insert_ge by lia.
  rewrite drop_insert_lt by lia.
  rewrite <- app_assoc. simpl.
  replace (Z.to_nat n + S (length l))%nat with (S (Z.to_nat n) + length l)%nat by lia.
  reflexivity.
Qed.

Lemma shader_desc_with_nil (d : sg_shader_desc) : shader_desc_with d [] = d.
Proof.
  unfold shader_desc_with. rewrite attrs_with_nil. simpl.
  rewrite Z.add_0_r. destruct d; reflexivity.
Qed.

Lemma shader_desc_with_cons (d : sg_shader_desc) (a : c_string * sg_vertex_format)
    (l : list (c_string * sg_vertex_format)) :
  0 ≤ sd_num_attrs d → (Z.to_nat (sd_num_attrs d) < length (sd_attrs d))%nat →
  shader_desc_with (shader_desc_push d (fst a) (snd a)) l
  = shader_desc_with d (a :: l).
Proof.
  intros Hn Hlt. unfold shader_desc_with, shader_desc_push.
  cbn [sd_vs sd_fs sd_num_attrs sd_attrs].
  rewrite <- (attrs_with_cons _ _ a l Hn Hlt).
  f_equal. simpl length. lia.
Qed.

Lemma attrs_with_reads (n : Z) (attrs : list sg_vertex_attr)
    (l : list (c_string * sg_vertex_format)) :
  0 ≤ n → (Z.to_nat n + length l ≤ length attrs)%nat →
  length (attrs_with n attrs l) = length attrs ∧
  (∀ i a, l !! i = Some a →
     attrs_with n attrs l !! (Z.to_nat n + i)%nat = Some (vertex_attr_of a)) ∧
  (∀ j, (j < Z.to_nat n ∨ Z.to_nat n + length l ≤ j)%nat →
     attrs_with n attrs l !! j = attrs !! j).
Proof.
  intros Hn Hfit. unfold attrs_with.
  assert (Htake : length (take (Z.to_nat n) attrs) = Z.to_nat n)
    by (apply length_take_le; lia).
  split; [|split].
  - rewrite !length_app, Htake, length_fmap, length_drop. lia.
  - intros i a Ha.
    rewrite lookup_app_r by lia. rewrite Htake.
    replace (Z.to_nat n + i - Z.to_nat n)%nat with i by lia.
    rewrite lookup_app_l by (rewrite length_fmap; eapply lookup_lt_Some; exact Ha).
    rewrite list_lookup_fmap, Ha. reflexivity.
  - intros j [Hj|Hj].
    + rewrite lookup_app_l by lia. apply lookup_take_lt. exact Hj.
    + rewrite lookup_app_r by lia. rewrite Htake.
      rewrite lookup_app_r by (rewrite length_fmap; lia).
      rewrite length_fmap, lookup_drop. f_equal. lia.
Qed.

Lemma add_shader_attrs_cons (a : c_string * sg_vertex_format)
    (l : list (c_string * sg_vertex_format)) :
  add_shader_attrs (a :: l)
  = (sg_shader_desc_attr (fst a) (snd a) ;; add_shader_attrs l).
Proof. reflexivity. Qed.

Lemma add_shader_attrs_run (d : sg_shader_desc)
    (l : list (c_string * sg_vertex_format)) :
  shader_desc_shaped d →
  Forall (λ a, vertex_attr_ok (fst a) (snd a)) l →
  0 ≤ sd_num_attrs d ≤ SG_MAX_VERTEX_ATTRIBUTES →
  (sd_num_attrs d + Z.of_nat (length l) ≤ SG_MAX_VERTEX_ATTRIBUTES →
   add_shader_attrs l d = Done tt (shader_desc_with d l)) ∧
  (SG_MAX_VERTEX_ATTRIBUTES < sd_num_attrs d + Z.of_nat (length l) →
   add_shader_attrs l d
   = Abort (shader_desc_with d (take (attrs_room (sd_num_attrs d)) l)) ∧
   sd_num_attrs (shader_desc_with d (take (attrs_room (sd_num_attrs d)) l))
   = SG_MAX_VERTEX_ATTRIBUTES).
Proof.
  intros Hshape Hok. revert d Hshape.
  induction Hok as [|a l Ha Hok IH]; intros d Hshape Hn.
  { split.
    - intros _. rewrite shader_desc_with_nil. reflexivity.
    - simpl. lia. }
  pose proof Hshape as Hlen. unfold shader_desc_shaped in Hlen.
  change (Z.to_nat SG_MAX_VERTEX_ATTRIBUTES) with 16%nat in Hlen.
  pose proof (sg_shader_desc_attr_rejects d (fst a) (snd a)) as Habort.
  pose proof (sg_shader_desc_attr_done d (fst a) (snd a) Hshape) as Hdone.
  rewrite add_shader_attrs_cons.
  destruct (Z_lt_le_dec (sd_num_attrs d) SG_MAX_VERTEX_ATTRIBUTES) as [Hlt|Hge].
  - assert (Hidx : (Z.to_nat (sd_num_attrs d) < length (sd_attrs d))%nat)
      by (unfold SG_MAX_VERTEX_ATTRIBUTES in Hlt; lia).
    rewrite (prog_bind_Done _ _ _ _ _ (Hdone Ha (conj (proj1 Hn) Hlt))).
    destruct (IH (shader_desc_push d (fst a) (snd a))) as [IHfit IHover].
    { unfold shader_desc_shaped, shader_desc_push. cbn [sd_attrs].
      rewrite length_insert. exact Hshape. }
    { unfold shader_desc_push. cbn [sd_num_attrs]. lia. }
    rewrite (shader_desc_with_cons d a l (proj1 Hn) Hidx) in IHfit.
    rewrite !(shader_desc_with_cons d a _ (proj1 Hn) Hidx) in IHover.
    unfold shader_desc_push in IHfit, IHover. cbn [sd_num_attrs] in IHfit, IHover.
    split.
    + intros Hfit. apply IHfit. simpl length in Hfit. lia.
    + intros Hover.
      replace (attrs_room (sd_num_attrs d))
        with (S (attrs_room (sd_num_attrs d + 1)))
        by (unfold attrs_room, SG_MAX_VERTEX_ATTRIBUTES in *; lia).
      rewrite firstn_cons.
      apply IHover. simpl length in Hover. lia.
  - replace (attrs_room (sd_num_attrs d)) with 0%nat
      by (unfold attrs_room; lia).
    rewrite take_0, shader_desc_with_nil.
    split; [simpl length; lia|]. intros _.
    split; [|lia].
    apply prog_bind_Abort. apply Habort. right. exact Hge.
Qed.

(** A caller adds the attributes of a list to a shader descriptor of
    the declared shape whose count is between 0 and 16, each with a name
    and a format.  When they all fit, the calls return the descriptor
    with the attributes stored in the order of the list from the old
    count on, the count raised by the length of the list and everything
    else as it was: the attribute at index count + i is the i-th of the
    list, the attributes below the old count and behind the new one are
    untouched, and so are both stages.  When they do not fit, the call
    for the first attribute without room stops in an assertion, and the
    descriptor then holds exactly the attributes that fitted, with count
    16. *)
Theorem add_shader_attrs_outcome (d : sg_shader_desc)
    (l : list (c_string * sg_vertex_format)) :
  shader_desc_shaped d →
  Forall (λ a, vertex_attr_ok (fst a) (snd a)) l →
  0 ≤ sd_num_attrs d ≤ SG_MAX_VERTEX_ATTRIBUTES →
  (sd_num_attrs d + Z.of_nat (length l) ≤ SG_MAX_VERTEX_ATTRIBUTES →
   add_shader_attrs l d = Done tt (shader_desc_with d l)) ∧
  (SG_MAX_VERTEX_ATTRIBUTES < sd_num_attrs d + Z.of_nat (length l) →
   add_shader_attrs l d
   = Abort (shader_desc_with d (take (attrs_room (sd_num_attrs d)) l)) ∧
   sd_num_attrs (shader_desc_with d (take (attrs_room (sd_num_attrs d)) l))
   = SG_MAX_VERTEX_ATTRIBUTES) ∧
  (sd_num_attrs d + Z.of_nat (length l) ≤ SG_MAX_VERTEX_ATTRIBUTES →
   sd_num_attrs (shader_desc_with d l) = sd_num_attrs d + Z.of_nat (length l) ∧
   sd_vs (shader_desc_with d l) = sd_vs d ∧
   sd_fs (shader_desc_with d l) = sd_fs d ∧
   length (sd_attrs (shader_desc_with d l)) = length (sd_attrs d) ∧
   (∀ i a, l !! i = Some a →
      sd_attrs (shader_desc_with d l) !! (Z.to_nat (sd_num_attrs d) + i)%nat
      = Some (vertex_attr_of a)) ∧
   (∀ j, (j < Z.to_nat (sd_num_attrs d) ∨
          Z.to_nat (sd_num_attrs d) + length l ≤ j)%nat →
      sd_attrs (shader_desc_with d l) !! j = sd_attrs d !! j)).
Proof.
  intros Hshape Hok Hn.
  destruct (add_shader_attrs_run d l Hshape Hok Hn) as [Hfit Hover].
  split; [exact Hfit|]. split; [exact Hover|].
  intros Hle. unfold shader_desc_shaped in Hshape.
  change (Z.to_nat SG_MAX_VERTEX_ATTRIBUTES) with 16%nat in Hshape.
  unfold SG_MAX_VERTEX_ATTRIBUTES in Hle.
  destruct (attrs_with_reads (sd_num_attrs d) (sd_attrs d) l) as (Hlen & Hnew & Hold);
    [lia|lia|].
  unfold shader_desc_with. cbn [sd_num_attrs sd_vs sd_fs sd_attrs].
  repeat (split; [reflexivity|]).
  split; [exact Hlen|]. split; [exact Hnew|exact Hold].
Qed.

Lemma add_shader_attrs_outcome_witness :
  add_shader_attrs
    [(Some "position"%string, SG_VERTEXFORMAT_FLOAT3);
     (Some "color"%string, SG_VERTEXFORMAT_UBYTE4N)]
    (raw_shader_desc 14)
  = Done tt (shader_desc_with (raw_shader_desc 14)
               [(Some "position"%string, SG_VERTEXFORMAT_FLOAT3);
                (Some "color"%string, SG_VERTEXFORMAT_UBYTE4N)]) ∧
  add_shader_attrs
    [(Some "position"%string, SG_VERTEXFORMAT_FLOAT3);
     (Some "color"%string, SG_VERTEXFORMAT_UBYTE4N)]
    (raw_shader_desc 15)
  = Abort (shader_desc_with (raw_shader_desc 15)
             [(Some "position"%string, SG_VERTEXFORMAT_FLOAT3)]).
Proof.
  assert (Hok : Forall (λ a : c_string * sg_vertex_format,
                          vertex_attr_ok (fst a) (snd a))
                  [(Some "position"%string, SG_VERTEXFORMAT_FLOAT3);
                   (Some "color"%string, SG_VERTEXFORMAT_UBYTE4N)]).
  { repeat (apply Forall_cons; split;
            [split; [eexists; reflexivity|discriminate]|]).
    apply Forall_nil_2. }
  split.
  - refine (proj1 (add_shader_attrs_outcome (raw_shader_desc 14) _ eq_refl Hok _) _);
      unfold SG_MAX_VERTEX_ATTRIBUTES; simpl; lia.
  - refine (proj1 (proj1 (proj2 (add_shader_attrs_outcome (raw_shader_desc 15) _
                                   eq_refl Hok _)) _));
      unfold SG_MAX_VERTEX_ATTRIBUTES; simpl; lia.
Defined.

(** A caller initialises a shader descriptor of the declared shape and
    then adds the attributes of a list, each with a name and a format.
    With at most 16 attributes the calls return the descriptor whose
    count is the length of the list, whose attribute array is the list
    in order followed by unnamed attributes of invalid format, and whose
    stages are as init left them.  With more than 16 the seventeenth
    call stops in an assertion with count 16 and the array holding the
    first sixteen attributes. *)
Theorem init_then_add_shader_attrs (d : sg_shader_desc)
    (l : list (c_string * sg_vertex_format)) :
  shader_desc_storage d →
  Forall (λ a, vertex_attr_ok (fst a) (snd a)) l →
  ((length l ≤ 16)%nat →
   (sg_init_shader_desc ;; add_shader_attrs l) d
   = Done tt {| sd_vs := default_shader_stage_desc;
                sd_fs := default_shader_stage_desc;
                sd_num_attrs := Z.of_nat (length l);
                sd_attrs := (vertex_attr_of <$> l) ++
                            replicate (16 - length l) default_vertex_attr |}) ∧
  ((16 < length l)%nat →
   (sg_init_shader_desc ;; add_shader_attrs l) d
   = Abort {| sd_vs := default_shader_stage_desc;
              sd_fs := default_shader_stage_desc;
              sd_num_attrs := 16;
              sd_attrs := vertex_attr_of <$> take 16 l |}).
Proof.
  intros Hstorage Hok.
  rewrite (prog_bind_Done _ _ _ _ _ (shader_desc_init_run d Hstorage)).
  destruct (add_shader_attrs_run default_shader_desc l eq_refl Hok)
    as [Hfit Hover]; [simpl; unfold SG_MAX_VERTEX_ATTRIBUTES; lia|].
  cbn [sd_num_attrs default_shader_desc] in Hfit, Hover.
  unfold SG_MAX_VERTEX_ATTRIBUTES in Hfit, Hover.
  split.
  - intros Hlen. rewrite Hfit by lia.
    unfold shader_desc_with, attrs_with. cbn [default_shader_desc sd_vs sd_fs
      sd_num_attrs sd_attrs]. simpl take. rewrite Z.add_0_l.
    change (Z.to_nat 0 + length l)%nat with (length l).
    change (Z.to_nat SG_MAX_VERTEX_ATTRIBUTES) with 16%nat.
    rewrite drop_replicate. reflexivity.
  - intros Hlen. destruct Hover as [-> _]; [lia|].
    change (attrs_room 0) with 16%nat.
    unfold shader_desc_with, attrs_with. cbn [default_shader_desc sd_vs sd_fs
      sd_num_attrs sd_attrs]. simpl take at 1. rewrite Z.add_0_l.
    change (Z.to_nat 0 + length (take 16 l))%nat with (length (take 16 l)).
    change (Z.to_nat SG_MAX_VERTEX_ATTRIBUTES) with 16%nat.
    rewrite length_take_le by lia.
    rewrite drop_replicate. simpl replicate. rewrite app_nil_r. reflexivity.
Qed.

Lemma init_then_add_shader_attrs_witness :
  (sg_init_shader_desc ;;
   add_shader_attrs [(Some "position"%string, SG_VERTEXFORMAT_FLOAT3);
                     (Some "color"%string, SG_VERTEXFORMAT_UBYTE4N)])
    (raw_shader_desc 3)
  = Done tt {| sd_vs := default_shader_stage_desc;
               sd_fs := default_shader_stage_desc;
               sd_num_attrs := 2;
               sd_attrs :=
                 [{| va_name := Some "position"%string;
                     va_format := SG_VERTEXFORMAT_FLOAT3 |};
                  {| va_name := Some "color"%string;
                     va_format := SG_VERTEXFORMAT_UBYTE4N |}] ++
                 replicate 14 default_vertex_attr |}.
Proof.
  refine (proj1 (init_then_add_shader_attrs (raw_shader_desc 3)
                   [(Some "position"%string, SG_VERTEXFORMAT_FLOAT3);
                    (Some "color"%string, SG_VERTEXFORMAT_UBYTE4N)] _ _) _).
  - assert (Hst : shader_stage_desc_shaped raw_shader_stage_desc).
    { split; [reflexivity|]. split; [|reflexivity].
      unfold raw_shader_stage_desc, st_uniform_blocks.
      apply Forall_replicate. reflexivity. }
    split; [exact Hst|]. split; [exact Hst|]. reflexivity.
  - repeat (apply Forall_cons; split;
            [split; [eexists; reflexivity|discriminate]|]).
    apply Forall_nil_2.
  - simpl. lia.
Defined.

Lemma vertex_layout_with_nil (lay : sg_vertex_layout) : vertex_layout_with lay [] = lay.
Proof.
  unfold vertex_layout_with. rewrite attrs_with_nil. simpl.
  rewrite Z.add_0_r. destruct lay; reflexivity.
Qed.

Lemma vertex_layout_with_cons (lay : sg_vertex_layout)
    (a : c_string * sg_vertex_format) (l : list (c_string * sg_vertex_format)) :
  0 ≤ vl_num_attrs lay → (Z.to_nat (vl_num_attrs lay) < length (vl_attrs lay))%nat →
  vertex_layout_with (vertex_layout_push lay (fst a) (snd a)) l
  = vertex_layout_with lay (a :: l).
Proof.
  intros Hn Hlt. unfold vertex_layout_with, vertex_layout_push.
  cbn [vl_num_attrs vl_attrs vl_step_func vl_step_rate].
  rewrite <- (attrs_with_cons _ _ a l Hn Hlt).
  f_equal. simpl length. lia.
Qed.

Lemma pipeline_desc_with_nil (d : sg_pipeline_desc) (slot : Z) :
  pipeline_desc_with d slot [] = d.
Proof.
  unfold pipeline_desc_with.
  rewrite list_alter_id by apply vertex_layout_with_nil.
  destruct d; reflexivity.
Qed.

Lemma pipeline_desc_with_cons (d : sg_pipeline_desc) (slot : Z) (lay : sg_vertex_layout)
    (a : c_string * sg_vertex_format) (l : list (c_string * sg_vertex_format)) :
  pd_layouts d !! Z.to_nat slot = Some lay →
  0 ≤ vl_num_attrs lay → (Z.to_nat (vl_num_attrs lay) < length (vl_attrs lay))%nat →
  pipeline_desc_with (pipeline_desc_push d slot (fst a) (snd a)) slot l
  = pipeline_desc_with d slot (a :: l).
Proof.
  intros Hlay Hn Hlt. unfold pipeline_desc_with, pipeline_desc_push.
  cbn [pd_shader pd_layouts pd_depth_stencil pd_blend pd_rast].
  f_equal.
  rewrite (list_alter_lookup_insert _ (pd_layouts d) _ lay Hlay).
  rewrite (list_alter_lookup_insert _ (pd_layouts d) _ lay Hlay).
  rewrite (list_alter_lookup_insert _ _ _ (vertex_layout_push lay (fst a) (snd a)))
    by (apply list_lookup_insert_eq; eapply lookup_lt_Some; exact Hlay).
  rewrite list_insert_insert_eq.
  rewrite (vertex_layout_with_cons lay a l Hn Hlt). reflexivity.
Qed.

Lemma add_pipeline_attrs_cons (slot : Z) (a : c_string * sg_vertex_format)
    (l : list (c_string * sg_vertex_format)) :
  add_pipeline_attrs slot (a :: l)
  = (sg_pipeline_desc_attr slot (fst a) (snd a) ;; add_pipeline_attrs slot l).
Proof. reflexivity. Qed.

Lemma pipeline_desc_push_shaped (d : sg_pipeline_desc) (slot : Z)
    (name : c_string) (format : sg_vertex_format) :
  pipeline_desc_shaped d → pipeline_desc_shaped (pipeline_desc_push d slot name format).
Proof.
  intros [Hlen Hall]. unfold pipeline_desc_push. split; cbn [pd_layouts].
  - rewrite length_alter. exact Hlen.
  - apply Forall_alter; [exact Hall|]. intros lay _ Hlay.
    unfold vertex_layout_shaped, vertex_layout_push in *. cbn [vl_attrs].
    rewrite length_insert. exact Hlay.
Qed.

Lemma add_pipeline_attrs_run (d : sg_pipeline_desc) (slot : Z)
    (lay : sg_vertex_layout) (l : list (c_string * sg_vertex_format)) :
  pipeline_desc_shaped d →
  0 ≤ slot < SG_MAX_SHADERSTAGE_BUFFERS →
  pd_layouts d !! Z.to_nat slot = Some lay →
  Forall (λ a, vertex_attr_ok (fst a) (snd a)) l →
  0 ≤ vl_num_attrs lay ≤ SG_MAX_VERTEX_ATTRIBUTES →
  (vl_num_attrs lay + Z.of_nat (length l) ≤ SG_MAX_VERTEX_ATTRIBUTES →
   add_pipeline_attrs slot l d = Done tt (pipeline_desc_with d slot l)) ∧
  (SG_MAX_VERTEX_ATTRIBUTES < vl_num_attrs lay + Z.of_nat (length l) →
   add_pipeline_attrs slot l d
   = Abort (pipeline_desc_with d slot (take (attrs_room (vl_num_attrs lay)) l))).
Proof.
  intros Hshape Hslot Hlay Hok. revert d lay Hshape Hlay.
  induction Hok as [|a l Ha Hok IH]; intros d lay Hshape Hlay Hn.
  { split.
    - intros _. rewrite pipeline_desc_with_nil. reflexivity.
    - simpl. lia. }
  assert (Hlen : length (vl_attrs lay) = 16%nat).
  { destruct Hshape as [_ Hall]. apply (Forall_lookup_1 _ _ _ _ Hall Hlay). }
  pose proof (sg_pipeline_desc_attr_full d slot lay (fst a) (snd a)
                (proj1 Hslot) Hlay) as Hfull.
  pose proof (sg_pipeline_desc_attr_done d slot lay (fst a) (snd a)
                Hshape Hslot Hlay) as Hdone.
  rewrite add_pipeline_attrs_cons.
  destruct (Z_lt_le_dec (vl_num_attrs lay) SG_MAX_VERTEX_ATTRIBUTES) as [Hlt|Hge].
  - assert (Hidx : (Z.to_nat (vl_num_attrs lay) < length (vl_attrs lay))%nat)
      by (unfold SG_MAX_VERTEX_ATTRIBUTES in Hlt; lia).
    rewrite (prog_bind_Done _ _ _ _ _ (Hdone Ha (conj (proj1 Hn) Hlt))).
    destruct (IH (pipeline_desc_push d slot (fst a) (snd a))
                 (vertex_layout_push lay (fst a) (snd a))) as [IHfit IHover].
    { apply pipeline_desc_push_shaped. exact Hshape. }
    { unfold pipeline_desc_push. cbn [pd_layouts].
      rewrite list_lookup_alter_eq, Hlay. reflexivity. }
    { unfold vertex_layout_push. cbn [vl_num_attrs]. lia. }
    rewrite (pipeline_desc_with_cons d slot lay a l Hlay (proj1 Hn) Hidx) in IHfit.
    rewrite (pipeline_desc_with_cons d slot lay a _ Hlay (proj1 Hn) Hidx) in IHover.
    unfold vertex_layout_push in IHfit, IHover. cbn [vl_num_attrs] in IHfit, IHover.
    split.
    + intros Hfit. apply IHfit. simpl length in Hfit. lia.
    + intros Hover.
      replace (attrs_room (vl_num_attrs lay))
        with (S (attrs_room (vl_num_attrs lay + 1)))
        by (unfold attrs_room, SG_MAX_VERTEX_ATTRIBUTES in *; lia).
      rewrite firstn_cons.
      apply IHover. simpl length in Hover. lia.
  - replace (attrs_room (vl_num_attrs lay)) with 0%nat
      by (unfold attrs_room; lia).
    rewrite take_0, pipeline_desc_with_nil.
    split; [simpl length; lia|]. intros _.
    apply prog_bind_Abort. apply Hfull. exact Hge.
Qed.

(** A caller adds the attributes of a list to one layout of a pipeline
    descriptor of the declared shape; the slot is in [0, 4), the count
    of that layout between 0 and 16, every attribute has a name and a
    format.  When they all fit, the calls return the descriptor in which
    that layout holds the attributes in the order of the list from its
    old count on and its count is raised by the length of the list: the
    attribute at index count + i is the i-th of the list, the others of
    that layout, its step function and rate, the other layouts, the
    shader id and the render states are as they were.  When they do not
    fit, the call for the first attribute without room
    stops in an assertion, and the layout then holds exactly the
    attributes that fitted. *)
Theorem add_pipeline_attrs_outcome (d : sg_pipeline_desc) (slot : Z)
    (lay : sg_vertex_layout) (l : list (c_string * sg_vertex_format)) :
  pipeline_desc_shaped d →
  0 ≤ slot < SG_MAX_SHADERSTAGE_BUFFERS →
  pd_layouts d !! Z.to_nat slot = Some lay →
  Forall (λ a, vertex_attr_ok (fst a) (snd a)) l →
  0 ≤ vl_num_attrs lay ≤ SG_MAX_VERTEX_ATTRIBUTES →
  (vl_num_attrs lay + Z.of_nat (length l) ≤ SG_MAX_VERTEX_ATTRIBUTES →
   add_pipeline_attrs slot l d = Done tt (pipeline_desc_with d slot l)) ∧
  (SG_MAX_VERTEX_ATTRIBUTES < vl_num_attrs lay + Z.of_nat (length l) →
   add_pipeline_attrs slot l d
   = Abort (pipeline_desc_with d slot (take (attrs_room (vl_num_attrs lay)) l))) ∧
  (vl_num_attrs lay + Z.of_nat (length l) ≤ SG_MAX_VERTEX_ATTRIBUTES →
   pd_shader (pipeline_desc_with d slot l) = pd_shader d ∧
   pd_depth_stencil (pipeline_desc_with d slot l) = pd_depth_stencil d ∧
   pd_blend (pipeline_desc_with d slot l) = pd_blend d ∧
   pd_rast (pipeline_desc_with d slot l) = pd_rast d ∧
   (∀ k, k ≠ Z.to_nat slot →
      pd_layouts (pipeline_desc_with d slot l) !! k = pd_layouts d !! k) ∧
   ∃ lay',
     pd_layouts (pipeline_desc_with d slot l) !! Z.to_nat slot = Some lay' ∧
     vl_num_attrs lay' = vl_num_attrs lay + Z.of_nat (length l) ∧
     vl_step_func lay' = vl_step_func lay ∧
     vl_step_rate lay' = vl_step_rate lay ∧
     length (vl_attrs lay') = length (vl_attrs lay) ∧
     (∀ i a, l !! i = Some a →
        vl_attrs lay' !! (Z.to_nat (vl_num_attrs lay) + i)%nat
        = Some (vertex_attr_of a)) ∧
     (∀ j, (j < Z.to_nat (vl_num_attrs lay) ∨
            Z.to_nat (vl_num_attrs lay) + length l ≤ j)%nat →
        vl_attrs lay' !! j = vl_attrs lay !! j)).
Proof.
  intros Hshape Hslot Hlay Hok Hn.
  destruct (add_pipeline_attrs_run d slot lay l Hshape Hslot Hlay Hok Hn)
    as [Hfit Hover].
  split; [exact Hfit|]. split; [exact Hover|].
  intros Hle.
  assert (Hlen : length (vl_attrs lay) = 16%nat).
  { destruct Hshape as [_ Hall]. apply (Forall_lookup_1 _ _ _ _ Hall Hlay). }
  unfold SG_MAX_VERTEX_ATTRIBUTES in Hle.
  destruct (attrs_with_reads (vl_num_attrs lay) (vl_attrs lay) l)
    as (Hlen' & Hnew & Hold); [lia|lia|].
  unfold pipeline_desc_with.
  cbn [pd_shader pd_layouts pd_depth_stencil pd_blend pd_rast].
  repeat (split; [reflexivity|]).
  split; [intros k Hk; apply list_lookup_alter_ne; congruence|].
  exists (vertex_layout_with lay l).
  split; [rewrite list_lookup_alter_eq, Hlay; reflexivity|].
  unfold vertex_layout_with. cbn [vl_num_attrs vl_attrs vl_step_func vl_step_rate].
  repeat (split; [reflexivity|]).
  split; [exact Hlen'|]. split; [exact Hnew|exact Hold].
Qed.

Lemma list_alter_swap {T} (f g : T → T) (l : list T) (i j : nat) :
  i ≠ j → alter f i (alter g j l) = alter g j (alter f i l).
Proof.
  intros Hne. apply list_eq. intros k.
  destruct (decide (i = k)) as [Eik|Hik]; destruct (decide (j = k)) as [Ejk|Hjk];
    try congruence; subst.
  - rewrite list_lookup_alter_eq, !list_lookup_alter_ne, list_lookup_alter_eq
      by congruence. reflexivity.
  - rewrite list_lookup_alter_ne, !list_lookup_alter_eq, list_lookup_alter_ne
      by congruence. reflexivity.
  - rewrite !list_lookup_alter_ne by congruence. reflexivity.
Qed.

Lemma pipeline_desc_with_shaped (d : sg_pipeline_desc) (slot : Z)
    (l : list (c_string * sg_vertex_format)) :
  pipeline_desc_shaped d →
  (∀ lay, pd_layouts d !! Z.to_nat slot = Some lay →
          0 ≤ vl_num_attrs lay ∧
          vl_num_attrs lay + Z.of_nat (length l) ≤ SG_MAX_VERTEX_ATTRIBUTES) →
  pipeline_desc_shaped (pipeline_desc_with d slot l).
Proof.
  intros [Hlen Hall] Hfit. unfold pipeline_desc_with. split; cbn [pd_layouts].
  - rewrite length_alter. exact Hlen.
  - apply Forall_alter; [exact Hall|]. intros lay Hlay Hshape.
    destruct (Hfit lay Hlay) as [Hn Hle].
    unfold vertex_layout_shaped, vertex_layout_with, attrs_with in *. cbn [vl_attrs].
    change (Z.to_nat SG_MAX_VERTEX_ATTRIBUTES) with 16%nat in *.
    unfold SG_MAX_VERTEX_ATTRIBUTES in Hle.
    rewrite !length_app, length_take, length_drop, length_fmap. lia.
Qed.

(** Filling two different layouts of a pipeline descriptor can be done
    in either order: when the attributes of both lists have names and
    formats and fit into their layouts, adding the first list to its
    slot and then the second to the other slot returns the same
    descriptor as adding them the other way round. *)
Theorem add_pipeline_attrs_commute (d : sg_pipeline_desc) (slot1 slot2 : Z)
    (lay1 lay2 : sg_vertex_layout) (l1 l2 : list (c_string * sg_vertex_format)) :
  pipeline_desc_shaped d →
  0 ≤ slot1 < SG_MAX_SHADERSTAGE_BUFFERS →
  0 ≤ slot2 < SG_MAX_SHADERSTAGE_BUFFERS →
  slot1 ≠ slot2 →
  pd_layouts d !! Z.to_nat slot1 = Some lay1 →
  pd_layouts d !! Z.to_nat slot2 = Some lay2 →
  Forall (λ a, vertex_attr_ok (fst a) (snd a)) l1 →
  Forall (λ a, vertex_attr_ok (fst a) (snd a)) l2 →
  0 ≤ vl_num_attrs lay1 →
  vl_num_attrs lay1 + Z.of_nat (length l1) ≤ SG_MAX_VERTEX_ATTRIBUTES →
  0 ≤ vl_num_attrs lay2 →
  vl_num_attrs lay2 + Z.of_nat (length l2) ≤ SG_MAX_VERTEX_ATTRIBUTES →
  (add_pipeline_attrs slot1 l1 ;; add_pipeline_attrs slot2 l2) d
  = (add_pipeline_attrs slot2 l2 ;; add_pipeline_attrs slot1 l1) d ∧
  (add_pipeline_attrs slot1 l1 ;; add_pipeline_attrs slot2 l2) d
  = Done tt (pipeline_desc_with (pipeline_desc_with d slot1 l1) slot2 l2).
Proof.
  intros Hshape Hs1 Hs2 Hne Hlay1 Hlay2 Hok1 Hok2 Hn1 Hfit1 Hn2 Hfit2.
  assert (Hnat : Z.to_nat slot1 ≠ Z.to_nat slot2) by lia.
  assert (Hfirst : ∀ s l lay s' l' lay',
            0 ≤ s < SG_MAX_SHADERSTAGE_BUFFERS →
            0 ≤ s' < SG_MAX_SHADERSTAGE_BUFFERS →
            Z.to_nat s ≠ Z.to_nat s' →
            pd_layouts d !! Z.to_nat s = Some lay →
            pd_layouts d !! Z.to_nat s' = Some lay' →
            Forall (λ a, vertex_attr_ok (fst a) (snd a)) l →
            Forall (λ a, vertex_attr_ok (fst a) (snd a)) l' →
            0 ≤ vl_num_attrs lay →
            vl_num_attrs lay + Z.of_nat (length l) ≤ SG_MAX_VERTEX_ATTRIBUTES →
            0 ≤ vl_num_attrs lay' →
            vl_num_attrs lay' + Z.of_nat (length l') ≤ SG_MAX_VERTEX_ATTRIBUTES →
            (add_pipeline_attrs s l ;; add_pipeline_attrs s' l') d
            = Done tt (pipeline_desc_with (pipeline_desc_with d s l) s' l')).
  { intros s l lay s' l' lay' Hs Hs' Hss Hl Hl' Hok Hok' Hn Hfit Hn' Hfit'.
    destruct (add_pipeline_attrs_run d s lay l Hshape Hs Hl Hok) as [Hd _];
      [lia|].
    rewrite (prog_bind_Done _ _ _ _ _ (Hd Hfit)).
    destruct (add_pipeline_attrs_run (pipeline_desc_with d s l) s' lay' l')
      as [Hd' _]; try assumption.
    - apply pipeline_desc_with_shaped; [exact Hshape|].
      intros lay0 Hlay0. rewrite Hl in Hlay0. injection Hlay0 as <-. lia.
    - unfold pipeline_desc_with. cbn [pd_layouts].
      rewrite list_lookup_alter_ne by exact Hss. exact Hl'.
    - lia.
    - apply Hd'. exact Hfit'. }
  rewrite (Hfirst slot1 l1 lay1 slot2 l2 lay2) by (assumption || lia).
  rewrite (Hfirst slot2 l2 lay2 slot1 l1 lay1) by (assumption || lia).
  split; [|reflexivity].
  f_equal. unfold pipeline_desc_with.
  cbn [pd_shader pd_layouts pd_depth_stencil pd_blend pd_rast].
  f_equal. apply list_alter_swap. lia.
Qed.

Lemma attrs_with_default (l : list (c_string * sg_vertex_format)) :
  attrs_with 0 (replicate (Z.to_nat SG_MAX_VERTEX_ATTRIBUTES) default_vertex_attr) l
  = (vertex_attr_of <$> l) ++ replicate (16 - length l) default_vertex_attr.
Proof.
  unfold attrs_with. change (Z.to_nat 0) with 0%nat.
  rewrite take_0, Nat.add_0_l, drop_replicate. reflexivity.
Qed.

(** A caller initialises a pipeline descriptor of the declared shape and
    then adds at most 16 attributes, each with a name and a format, to
    the layout of one slot in [0, 4).  The calls return the descriptor
    in which that layout counts the attributes of the list and holds
    them in order, followed by unnamed attributes of invalid format,
    with the per-vertex step function and rate 1; the other three
    layouts, the shader id and the render states are as init left
    them. *)
Theorem init_then_add_pipeline_attrs (d : sg_pipeline_desc) (slot : Z)
    (l : list (c_string * sg_vertex_format)) :
  pipeline_desc_storage d →
  0 ≤ slot < SG_MAX_SHADERSTAGE_BUFFERS →
  Forall (λ a, vertex_attr_ok (fst a) (snd a)) l →
  (length l ≤ 16)%nat →
  (sg_init_pipeline_desc ;; add_pipeline_attrs slot l) d
  = Done tt
      {| pd_shader := SG_INVALID_ID;
         pd_layouts :=
           <[Z.to_nat slot :=
               {| vl_num_attrs := Z.of_nat (length l);
                  vl_attrs := (vertex_attr_of <$> l) ++
                              replicate (16 - length l) default_vertex_attr;
                  vl_step_func := SG_STEPFUNC_PER_VERTEX;
                  vl_step_rate := 1 |}]>
             (replicate 4 default_vertex_layout);
         pd_depth_stencil := default_depth_stencil_state;
         pd_blend := default_blend_state;
         pd_rast := default_rasterizer_state |}.
Proof.
  intros Hstorage Hslot Hok Hlen.
  rewrite (prog_bind_Done _ _ _ _ _ (pipeline_desc_init_run d Hstorage)).
  assert (Hlay : pd_layouts default_pipeline_desc !! Z.to_nat slot
                 = Some default_vertex_layout).
  { unfold default_pipeline_desc, pd_layouts. apply lookup_replicate_2.
    unfold SG_MAX_SHADERSTAGE_BUFFERS in *. lia. }
  destruct (add_pipeline_attrs_run default_pipeline_desc slot
              default_vertex_layout l) as [Hfit _]; try assumption.
  { split; [reflexivity|]. unfold default_pipeline_desc, pd_layouts.
    apply Forall_replicate. reflexivity. }
  { simpl. unfold SG_MAX_VERTEX_ATTRIBUTES. lia. }
  rewrite Hfit by (simpl; unfold SG_MAX_VERTEX_ATTRIBUTES; lia).
  unfold pipeline_desc_with.
  rewrite (list_alter_lookup_insert _ _ _ _ Hlay).
  unfold vertex_layout_with, default_vertex_layout at 1 2 3 4.
  cbn [vl_num_attrs vl_attrs vl_step_func vl_step_rate].
  rewrite attrs_with_default, Z.add_0_l. reflexivity.
Qed.

(** ** The theorems above on concrete descriptors *)

Lemma two_attrs_ok :
  Forall (λ a : c_string * sg_vertex_format, vertex_attr_ok (fst a) (snd a))
    [(Some "position"%string, SG_VERTEXFORMAT_FLOAT3);
     (Some "color"%string, SG_VERTEXFORMAT_UBYTE4N)].
Proof.
  repeat (apply Forall_cons; split; [split; [eexists; reflexivity|discriminate]|]).
  apply Forall_nil_2.
Qed.

Lemma shader_desc_wf_kept_witness :
  sg_shader_desc_attr (Some "position"%string) SG_VERTEXFORMAT_FLOAT3
    default_shader_desc = Abort default_shader_desc ∨
  ∃ d', sg_shader_desc_attr (Some "position"%string) SG_VERTEXFORMAT_FLOAT3
          default_shader_desc = Done tt d' ∧
        shader_desc_wf d' ∧
        sd_num_attrs d' = sd_num_attrs default_shader_desc + 1 ∧
        sd_num_attrs d' ≤ SG_MAX_VERTEX_ATTRIBUTES.
Proof.
  apply (proj2 shader_desc_wf_kept default_shader_desc).
  apply (proj1 shader_desc_wf_kept).
Defined.

Lemma pipeline_desc_wf_kept_witness :
  sg_pipeline_desc_attr 1 (Some "position"%string) SG_VERTEXFORMAT_FLOAT3
    default_pipeline_desc = Abort default_pipeline_desc ∨
  ∃ d' l l',
    sg_pipeline_desc_attr 1 (Some "position"%string) SG_VERTEXFORMAT_FLOAT3
      default_pipeline_desc = Done tt d' ∧
    pipeline_desc_wf d' ∧
    pd_layouts default_pipeline_desc !! Z.to_nat 1 = Some l ∧
    pd_layouts d' !! Z.to_nat 1 = Some l' ∧
    vl_num_attrs l' = vl_num_attrs l + 1 ∧
    vl_num_attrs l' ≤ SG_MAX_VERTEX_ATTRIBUTES.
Proof.
  apply (proj2 pipeline_desc_wf_kept default_pipeline_desc).
  apply (proj1 pipeline_desc_wf_kept).
Defined.

Lemma add_pipeline_attrs_outcome_witness :
  add_pipeline_attrs 3
    [(Some "position"%string, SG_VERTEXFORMAT_FLOAT3);
     (Some "color"%string, SG_VERTEXFORMAT_UBYTE4N)]
    (raw_pipeline_desc 14)
  = Done tt (pipeline_desc_with (raw_pipeline_desc 14) 3
               [(Some "position"%string, SG_VERTEXFORMAT_FLOAT3);
                (Some "color"%string, SG_VERTEXFORMAT_UBYTE4N)]) ∧
  add_pipeline_attrs 3
    [(Some "position"%string, SG_VERTEXFORMAT_FLOAT3);
     (Some "color"%string, SG_VERTEXFORMAT_UBYTE4N)]
    (raw_pipeline_desc 15)
  = Abort (pipeline_desc_with (raw_pipeline_desc 15) 3
             [(Some "position"%string, SG_VERTEXFORMAT_FLOAT3)]).
Proof.
  split.
  - refine (proj1 (add_pipeline_attrs_outcome (raw_pipeline_desc 14) 3
                     (raw_vertex_layout 14) _ (raw_pipeline_desc_shaped 14)
                     _ eq_refl two_attrs_ok _) _);
      unfold SG_MAX_SHADERSTAGE_BUFFERS, SG_MAX_VERTEX_ATTRIBUTES; simpl; lia.
  - refine (proj1 (proj2 (add_pipeline_attrs_outcome (raw_pipeline_desc 15) 3
                            (raw_vertex_layout 15) _ (raw_pipeline_desc_shaped 15)
                            _ eq_refl two_attrs_ok _)) _);
      unfold SG_MAX_SHADERSTAGE_BUFFERS, SG_MAX_VERTEX_ATTRIBUTES; simpl; lia.
Defined.

Lemma add_pipeline_attrs_commute_witness :
  (add_pipeline_attrs 0 [(Some "position"%string, SG_VERTEXFORMAT_FLOAT3)] ;;
   add_pipeline_attrs 2 [(Some "offset"%string, SG_VERTEXFORMAT_FLOAT2)])
    (raw_pipeline_desc 4)
  = (add_pipeline_attrs 2 [(Some "offset"%string, SG_VERTEXFORMAT_FLOAT2)] ;;
     add_pipeline_attrs 0 [(Some "position"%string, SG_VERTEXFORMAT_FLOAT3)])
      (raw_pipeline_desc 4).
Proof.
  refine (proj1 (add_pipeline_attrs_commute (raw_pipeline_desc 4) 0 2
                   (raw_vertex_layout 4) (raw_vertex_layout 4)
                   [(Some "position"%string, SG_VERTEXFORMAT_FLOAT3)]
                   [(Some "offset"%string, SG_VERTEXFORMAT_FLOAT2)]
                   (raw_pipeline_desc_shaped 4) _ _ _ _ _ _ _ _ _ _ _));
    try reflexivity;
    try (unfold SG_MAX_SHADERSTAGE_BUFFERS, SG_MAX_VERTEX_ATTRIBUTES; simpl; lia);
    apply Forall_cons; (split; [split; [eexists; reflexivity|discriminate]|]);
    apply Forall_nil_2.
Defined.

Lemma init_then_add_pipeline_attrs_witness :
  (sg_init_pipeline_desc ;;
   add_pipeline_attrs 1 [(Some "position"%string, SG_VERTEXFORMAT_FLOAT3);
                         (Some "color"%string, SG_VERTEXFORMAT_UBYTE4N)])
    (raw_pipeline_desc 6)
  = Done tt
      {| pd_shader := SG_INVALID_ID;
         pd_layouts :=
           [default_vertex_layout;
            {| vl_num_attrs := 2;
               vl_attrs :=
                 [{| va_name := Some "position"%string;
                     va_format := SG_VERTEXFORMAT_FLOAT3 |};
                  {| va_name := Some "color"%string;
                     va_format := SG_VERTEXFORMAT_UBYTE4N |}] ++
                 replicate 14 default_vertex_attr;
               vl_step_func := SG_STEPFUNC_PER_VERTEX;
               vl_step_rate := 1 |};
            default_vertex_layout;
            default_vertex_layout];
         pd_depth_stencil := default_depth_stencil_state;
         pd_blend := default_blend_state;
         pd_rast := default_rasterizer_state |}.
Proof.
  apply (init_then_add_pipeline_attrs (raw_pipeline_desc 6) 1
           [(Some "position"%string, SG_VERTEXFORMAT_FLOAT3);
            (Some "color"%string, SG_VERTEXFORMAT_UBYTE4N)]).
  - split; [apply raw_pipeline_desc_shaped|reflexivity].
  - unfold SG_MAX_SHADERSTAGE_BUFFERS. lia.
  - exact two_attrs_ok.
  - simpl. lia.
Defined.
